(** * sshd: session/channel layer of an SSH server

    A shallow embedding of [channel.go] (the channel request loop, the
    process/IO bridge, the connection teardown and the binary request codec)
    and of [setwindowsize_unix.go], with the properties of the behaviour
    description stated and proved over it.

    Conventions of the embedding.
    - A Go [[]byte] is a [list byte]; a Go [string] is a [string]
      ([string(b)] is [string_of_list_byte b]).
    - Go's [int] is the 64-bit two's complement integer of the platforms the
      daemon is built for (amd64, arm64); [uint32] and [uint16] are [Z] with
      their wrap-around written out.
    - A Go [error] is [option string]: [None] is [nil], [Some s] is an error
      whose [Error()] text is [s].
    - Calls into the operating system and the transport library take their
      outcome from a script carried by the [World], and leave an [Event] in
      its trace, so every theorem quantifies over every behaviour of the
      environment. *)

From Stdlib Require Import ZArith List String Ascii Strings.Byte Bool Lia.
From Stdlib Require Import DecimalString.
Import ListNotations.

Local Open Scope string_scope.
Local Open Scope Z_scope.

(** ** Go primitives *)

Module Go.

(** [error]: [nil] or a value with an [Error()] text. *)
Definition error := option string.

(** [len(b)] as an [int]. *)
Definition len {A} (b : list A) : Z := Z.of_nat (List.length b).

(** The slice expression [b[lo:hi]]. *)
Definition slice {A} (b : list A) (lo hi : Z) : list A :=
  firstn (Z.to_nat (hi - lo)) (skipn (Z.to_nat lo) b).

(** The slice expression [b[lo:]]. *)
Definition slice_from {A} (b : list A) (lo : Z) : list A :=
  skipn (Z.to_nat lo) b.

(** Wrap-around of the signed 64-bit [int]. *)
Definition wrap_int (z : Z) : Z := (z + 2 ^ 63) mod 2 ^ 64 - 2 ^ 63.

(** Conversions between the integer types. *)
Definition int_of_uint32 (x : Z) : Z := wrap_int x.
Definition uint32_of_int (x : Z) : Z := x mod 2 ^ 32.
Definition uint16_of_uint32 (x : Z) : Z := x mod 2 ^ 16.

(** [a + b] on [int]. *)
Definition int_add (a b : Z) : Z := wrap_int (a + b).

(** [append(s, x)] and [append(s, xs...)]. *)
Definition append {A} (s : list A) (x : A) : list A := (s ++ [x])%list.
Definition append_all {A} (s xs : list A) : list A := (s ++ xs)%list.

(** The verb [%d]. *)
Definition itoa (z : Z) : string := NilZero.string_of_int (Z.to_int z).

Definition byte_val (b : byte) : Z := Z.of_N (Byte.to_N b).

(** [uint32(b3) | uint32(b2)<<8 | uint32(b1)<<16 | uint32(b0)<<24]. *)
Definition be_uint32 (b0 b1 b2 b3 : byte) : Z :=
  Z.lor (Z.lor (Z.lor (byte_val b3) (Z.shiftl (byte_val b2) 8))
               (Z.shiftl (byte_val b1) 16))
        (Z.shiftl (byte_val b0) 24).

(** [binary.BigEndian.Uint32]; Go panics on fewer than four bytes. *)
Definition BigEndian_Uint32_checked (b : list byte) : option Z :=
  match b with
  | b0 :: b1 :: b2 :: b3 :: _ => Some (be_uint32 b0 b1 b2 b3)
  | _ => None
  end.

Definition BigEndian_Uint32 (b : list byte) : Z :=
  match BigEndian_Uint32_checked b with
  | Some v => v
  | None => 0
  end.

(** The [i]-th byte, counted from the most significant, of a 32-bit value. *)
Definition be_byte (v : Z) (i : Z) : byte :=
  match Byte.of_N (Z.to_N (Z.land (Z.shiftr v (8 * (3 - i))) 255)) with
  | Some b => b
  | None => x00
  end.

(** [binary.BigEndian.AppendUint32(b, v)]. *)
Definition BigEndian_AppendUint32 (b : list byte) (v : Z) : list byte :=
  append_all b [be_byte v 0; be_byte v 1; be_byte v 2; be_byte v 3].

(** [errors.Join]: nil values are discarded; nil if nothing is left. *)
Definition errors_Join (errs : list error) : option (list string) :=
  match flat_map (fun e => match e with Some s => [s] | None => [] end) errs with
  | [] => None
  | l => Some l
  end.

End Go.

(** ** Binary request codec *)

Module Codec.
Import Go.

Definition parseString (b : list byte) : string * Z * error :=
  if len b <? 4 then
    ("", 0, Some ("number of bytes in less than 4: " ++ itoa (len b)))
  else
    let l := int_of_uint32 (BigEndian_Uint32 (slice b 0 4)) in
    if len b <? int_add l 4 then
      ("", 0,
       Some ("string length is " ++ itoa l ++ ", but input only has "
             ++ itoa (len b)
             ++ " bytes (including the 4 bytes length prefix)"))
    else
      (string_of_list_byte (slice b 4 (int_add l 4)), int_add l 4, None).

Definition parseWindowSize (b : list byte) : Z * Z * Z * Z * error :=
  if len b <? 16 then
    (0, 0, 0, 0, Some ("number of bytes is less than 16: " ++ itoa (len b)))
  else
    (BigEndian_Uint32 (slice b 0 4),
     BigEndian_Uint32 (slice b 4 8),
     BigEndian_Uint32 (slice b 8 12),
     BigEndian_Uint32 (slice b 12 16),
     None).

End Codec.

(** ** The environment: operating system, transport library, logger *)

Module Env.
Import Go.

(** An [*os.File]: the object is identified by a number that is fresh at
    every allocation; it also stands for the descriptor [Fd()] returns. *)
Definition File := nat.
Definition Fd (f : File) : Z := Z.of_nat f.

(** An [ssh.Channel], an [*sftp.Server], an [*ssh.ServerConn] and a
    [context.CancelFunc] are handles as well. *)
Definition Stream := nat.
Definition SftpServer := nat.
Definition Transport := nat.
Definition CancelFunc := nat.

(** [os.ProcessState] after a successful wait: the process either exited
    with a status or was terminated by a signal. [ExitCode()] is, in the
    words of package os, "the exit code of the exited process, or -1 if the
    process hasn't exited or was terminated by a signal". *)
Inductive ProcessState :=
| Exited (status : Z)
| Signaled (signal : Z).

Definition ExitCode (p : ProcessState) : Z :=
  match p with
  | Exited status => status
  | Signaled _ => -1
  end.

(** Where a standard stream of a command is wired to. *)
Inductive Wire :=
| WireFile (f : option File)
| WireChannel (ch : option Stream).

(** [exec.Cmd], with the fields this package sets or reads. *)
Record Cmd := {
  Path : string;
  Args : list string;
  CmdEnv : list string;
  Dir : string;
  Stdin : option Wire;
  Stdout : option Wire;
  Stderr : option Wire;
  ExtraFiles : list (option File);
  Setsid : bool;
  Setctty : bool;
  Ctty : Z;
  Process : bool;
  CmdProcessState : option ProcessState
}.

(** [exec.Command(name, arg...)]: "The returned Cmd's Args field is
    constructed from the command name followed by the elements of arg". *)
Definition exec_Command (name : string) (arg : list string) : Cmd :=
  {| Path := name; Args := name :: arg; CmdEnv := []; Dir := "";
     Stdin := None; Stdout := None; Stderr := None; ExtraFiles := [];
     Setsid := false; Setctty := false; Ctty := 0;
     Process := false; CmdProcessState := None |}.

(** Work handed to a new goroutine by a [go] statement. *)
Inductive Task :=
| TaskSftpServe (srv : option SftpServer)
| TaskShell
| TaskExec (commands : list string)
| TaskCopyToPty
| TaskCopyFromPty.

Inductive Level := Info | Error.

(** Calls that leave this package, in the order they are made. *)
Inductive Event :=
| EvLog (lvl : Level) (msg : string) (attrs : list (string * string))
| EvReply (ok : bool) (payload : string)
| EvSftpNewServer (ch : option Stream)
| EvPtyOpen
| EvIoctlSetWinsize (fd : Z) (row col : Z)
| EvWgAdd (delta : Z)
| EvWgDone
| EvWgWait
| EvGo (t : Task)
| EvCmdStart (cmd : Cmd)
| EvCmdWait
| EvRecvWaiter
| EvCloseWrite (ch : option Stream)
| EvSendRequest (ch : option Stream) (name : string) (wantReply : bool)
    (payload : list byte)
| EvChannelClose (ch : option Stream)
| EvFileClose (f : File)
| EvCancel (f : CancelFunc)
| EvTransportClose (t : Transport).

(** What the environment answers to one call: the error it returns and,
    for a wait, the process state it reports. *)
Record Answer := { a_err : error; a_state : option ProcessState }.

Definition silent : Answer := {| a_err := None; a_state := None |}.

Record World := {
  w_script : list Answer;
  w_fresh : nat;
  w_trace : list Event
}.

(** State passing over the world. *)
Definition M (A : Type) : Type := World -> A * World.

Definition ret {A} (a : A) : M A := fun w => (a, w).

Definition bind {A B} (m : M A) (k : A -> M B) : M B :=
  fun w => let (a, w') := m w in k a w'.

Definition emit (e : Event) : M unit :=
  fun w => (tt, {| w_script := w_script w; w_fresh := w_fresh w;
                   w_trace := (w_trace w ++ [e])%list |}).

(** The next answer of the environment; it raises no error once the script
    is used up. *)
Definition answer : M Answer :=
  fun w => match w_script w with
           | [] => (silent, w)
           | a :: rest =>
               (a, {| w_script := rest; w_fresh := w_fresh w;
                      w_trace := w_trace w |})
           end.

(** Run [k] on the error, when there is one. *)
Definition on_err (e : error) (k : string -> M unit) : M unit :=
  match e with
  | Some err => k err
  | None => ret tt
  end.

Definition alloc : M nat :=
  fun w => (w_fresh w, {| w_script := w_script w; w_fresh := S (w_fresh w);
                          w_trace := w_trace w |}).

End Env.

Declare Scope go_scope.
Delimit Scope go_scope with go.
Notation "x <- m ;; k" := (Env.bind m (fun x => k))
  (at level 61, m at next level, right associativity) : go_scope.
Notation "m ;; k" := (Env.bind m (fun _ => k))
  (at level 61, right associativity) : go_scope.
Local Open Scope go_scope.

(** ** setwindowsize_unix.go *)

Module Winsize.
Import Go Env.

(** [unix.IoctlSetWinsize(fd, unix.TIOCSWINSZ, &unix.Winsize{Row, Col})]. *)
Definition IoctlSetWinsize (fd row col : Z) : M error :=
  emit (EvIoctlSetWinsize fd row col) ;;
  a <- answer ;;
  ret (a_err a).

Definition setWindowSize (fd row col : Z) : M error :=
  if (row =? 0) || (col =? 0) then ret None
  else IoctlSetWinsize fd row col.

End Winsize.

(** ** channel.go: the channel and its request loop *)

Module Chan.
Import Go Env Codec Winsize.

(** [user.User], with the fields read here. *)
Record User := { Username : string; HomeDir : string }.

(** [ssh.Request]. *)
Record Request := {
  Type_ : string;
  WantReply : bool;
  Payload : list byte
}.

(** [Channel]. The request source is the list handed to [Loop]; the wait
    group is shared with the connection and lives in the trace. *)
Record Channel := {
  channel : option Stream;
  env : list string;
  user : User;
  tty : option File;
  pty : option File;
  baseCancel : CancelFunc;
  sftpServer : option SftpServer
}.

Definition set_pty_tty (c : Channel) (p t : option File) : Channel :=
  {| channel := channel c; env := env c; user := user c;
     tty := t; pty := p;
     baseCancel := baseCancel c; sftpServer := sftpServer c |}.

Definition set_env (c : Channel) (e : list string) : Channel :=
  {| channel := channel c; env := e; user := user c;
     tty := tty c; pty := pty c;
     baseCancel := baseCancel c; sftpServer := sftpServer c |}.

Definition set_sftpServer (c : Channel) (s : option SftpServer) : Channel :=
  {| channel := channel c; env := env c; user := user c;
     tty := tty c; pty := pty c;
     baseCancel := baseCancel c; sftpServer := s |}.

(** [Fd()] of an [*os.File], converted to [int]; on a nil file it is
    [^uintptr(0)]. *)
Definition Fd_int (f : option File) : Z :=
  match f with
  | Some f => Fd f
  | None => -1
  end.

(** [fmt.Fprintf(payloadBuf, ...)] on the reply buffer; the buffer is nil
    when no reply is wanted, and then it is never written. *)
Definition buf_write (payloadBuf : option string) (s : string) : option string :=
  match payloadBuf with
  | Some b => Some (b ++ s)
  | None => None
  end.

Definition buf_Bytes (payloadBuf : option string) : string :=
  match payloadBuf with
  | Some b => b
  | None => ""
  end.

Definition msgLogError (wantReplay : bool) (payloadBuf : option string)
    (msg : string) (err : string) : M (option string) :=
  emit (EvLog Error msg [("err", err)]) ;;
  if wantReplay then ret (buf_write payloadBuf (msg ++ ": " ++ err))
  else ret payloadBuf.

(** [sftp.NewServer(c.channel)]. *)
Definition sftp_NewServer (ch : option Stream) : M (option SftpServer * error) :=
  emit (EvSftpNewServer ch) ;;
  a <- answer ;;
  match a_err a with
  | Some e => ret (None, Some e)
  | None => srv <- alloc ;; ret (Some srv, None)
  end.

(** [pty.Open()]: a new pty/tty pair of files, or an error. *)
Definition pty_Open : M (option File * option File * error) :=
  emit EvPtyOpen ;;
  a <- answer ;;
  match a_err a with
  | Some e => ret (None, None, Some e)
  | None => p <- alloc ;; t <- alloc ;; ret (Some p, Some t, None)
  end.

(** The [for len(payload) > 0] loop of the "exec" case: the commands
    gathered and the parse error that stopped it, if any. Every round
    consumes at least the four bytes of a prefix, so [fuel] rounds are
    enough for a payload of [fuel] bytes; [None] is running out of them. *)
Fixpoint exec_loop (fuel : nat) (commands : list string) (payload : list byte)
  : option (list string * error) :=
  if len payload >? 0 then
    match fuel with
    | O => None
    | S fuel' =>
        match parseString payload with
        | (_, _, Some e) => Some (commands, Some e)
        | (cmd, parsed, None) =>
            exec_loop fuel' (append commands cmd) (slice_from payload parsed)
        end
    end
  else Some (commands, None).

(** The [switch] of [processReq]: the channel afterwards, [ok], and the
    reply buffer. *)
Definition processReq_switch (c : Channel) (req : Request)
    (payloadBuf : option string) : M (Channel * bool * option string) :=
  let fail (msg err : string) :=
    buf <- msgLogError (WantReply req) payloadBuf msg err ;;
    ret (c, false, buf) in
  if (Type_ req =? "subsystem")%string then
    match parseString (Payload req) with
    | (_, _, Some err) => fail "failed to find the subsystem requested" err
    | (subsystem, _, None) =>
        if negb (subsystem =? "sftp")%string then
          fail "unsupported system" subsystem
        else
          r <- sftp_NewServer (channel c) ;;
          match r with
          | (_, Some err) => fail "failed to create sftp server over channel" err
          | (sftpserver, None) =>
              emit (EvWgAdd 1) ;;
              emit (EvGo (TaskSftpServe sftpserver)) ;;
              ret (set_sftpServer c sftpserver, true, payloadBuf)
          end
    end
  else if (Type_ req =? "pty-req")%string then
    match parseString (Payload req) with
    | (_, _, Some err) => fail "failed to parse terminfo" err
    | (_, parsed, None) =>
        match parseWindowSize (slice_from (Payload req) parsed) with
        | (_, _, _, _, Some err) => fail "failed to parse window size" err
        | (cols, rows, _, _, None) =>
            r <- pty_Open ;;
            match r with
            | (_, _, Some err) => fail "failed to create new pty" err
            | (pty', tty', None) =>
                let c := set_pty_tty c pty' tty' in
                e <- setWindowSize (Fd_int (pty c))
                       (uint16_of_uint32 rows) (uint16_of_uint32 cols) ;;
                match e with
                | Some err => emit (EvLog Info "failed to set window size" [("err", err)])
                | None => ret tt
                end ;;
                ret (c, true, payloadBuf)
            end
        end
    end
  else if (Type_ req =? "window-change")%string then
    match pty c with
    | None => fail "cannot setup pty" "pty is not setup"
    | Some _ =>
        match parseWindowSize (Payload req) with
        | (_, _, _, _, Some err) => fail "failed to parse window size" err
        | (cols, rows, _, _, None) =>
            e <- setWindowSize (Fd_int (pty c))
                   (uint16_of_uint32 rows) (uint16_of_uint32 cols) ;;
            match e with
            | Some err => fail "failed to set window size" err
            | None => ret (c, true, payloadBuf)
            end
        end
    end
  else if (Type_ req =? "env")%string then
    match parseString (Payload req) with
    | (_, _, Some err) => fail "failed to get environment name" err
    | (envname, consumed, None) =>
        match parseString (slice_from (Payload req) consumed) with
        | (_, _, Some err) => fail "failed to get environment value" err
        | (envvalue, _, None) =>
            ret (set_env c (append (env c) (envname ++ "=" ++ envvalue)),
                 true, payloadBuf)
        end
    end
  else if (Type_ req =? "shell")%string then
    if len (Payload req) >? 0 then
      fail "shell doesn't accept payload" (string_of_list_byte (Payload req))
    else
      match pty c with
      | None => fail "pty is not yet setup" "pty is not yet setup"
      | Some _ =>
          emit (EvWgAdd 1) ;;
          emit (EvGo TaskShell) ;;
          ret (c, true, payloadBuf)
      end
  else if (Type_ req =? "exec")%string then
    match exec_loop (List.length (Payload req)) ["-c"] (Payload req) with
    | None => ret (c, false, payloadBuf)
    | Some (_, Some err) => fail "failed to parse command" err
    | Some (commands, None) =>
        if len commands <=? 1 then
          fail "no commands in exec" (string_of_list_byte (Payload req))
        else
          emit (EvWgAdd 1) ;;
          emit (EvGo (TaskExec commands)) ;;
          ret (c, true, payloadBuf)
    end
  else
    fail "unsupported req type" (Type_ req).

(** [processReq]: the switch, then the deferred reply. Besides the channel
    afterwards it hands back [ok], which the Go function only reports
    through the reply. *)
Definition processReq (c : Channel) (req : Request) : M (Channel * bool) :=
  let payloadBuf := if WantReply req then Some "" else None in
  r <- processReq_switch c req payloadBuf ;;
  let '(c', ok, buf) := r in
  (if WantReply req then emit (EvReply ok (buf_Bytes buf)) else ret tt) ;;
  ret (c', ok).

(** [Loop], over the requests delivered before the source is closed or the
    channel's scope is cancelled. *)
Fixpoint Loop (c : Channel) (requests : list Request) : M Channel :=
  match requests with
  | [] => ret c
  | req :: rest => r <- processReq c req ;; Loop (fst r) rest
  end.

(** Whether some "pty-req" among [requests] succeeds when the loop runs
    them on [c] in the world [w]. *)
Fixpoint pty_req_succeeds (c : Channel) (requests : list Request) (w : World)
  : bool :=
  match requests with
  | [] => false
  | req :: rest =>
      let '(c', ok, w') := processReq c req w in
      ((Type_ req =? "pty-req")%string && ok) || pty_req_succeeds c' rest w'
  end.

(** The tokens the "exec" loop reads from a payload, when it reads it to
    the end. *)
Definition exec_tokens (payload : list byte) : option (list string) :=
  match exec_loop (List.length payload) ["-c"] payload with
  | Some (commands, None) => Some (tl commands)
  | _ => None
  end.

(** The files of a channel were all created before the world [w]. *)
Definition created_before (w : World) (c : Channel) : Prop :=
  (forall f, pty c = Some f -> (f < w_fresh w)%nat) /\
  (forall f, tty c = Some f -> (f < w_fresh w)%nat).

(** The goroutines a trace started, and the commands it started. *)
Definition spawned (tr : list Event) : list Task :=
  flat_map (fun e => match e with EvGo t => [t] | _ => [] end) tr.

Definition started (tr : list Event) : list Cmd :=
  flat_map (fun e => match e with EvCmdStart cmd => [cmd] | _ => [] end) tr.

(** The world after [events] more calls, none of them answered from the
    script. *)
Definition logged (w : World) (events : list Event) : World :=
  {| w_script := w_script w; w_fresh := w_fresh w;
     w_trace := append_all (w_trace w) events |}.

(** What a failing request leaves behind: the log entry and, when asked
    for, the reply that carries the same message. *)
Definition failure (req : Request) (msg err : string) : list Event :=
  EvLog Error msg [("err", err)]
  :: (if WantReply req then [EvReply false (msg ++ ": " ++ err)] else []).

End Chan.

(** ** channel.go: the process/IO bridge *)

Module Bridge.
Import Go Env Chan.

Definition set_started (cmd : Cmd) : Cmd :=
  {| Path := Path cmd; Args := Args cmd; CmdEnv := CmdEnv cmd; Dir := Dir cmd;
     Stdin := Stdin cmd; Stdout := Stdout cmd; Stderr := Stderr cmd;
     ExtraFiles := ExtraFiles cmd; Setsid := Setsid cmd;
     Setctty := Setctty cmd; Ctty := Ctty cmd;
     Process := true; CmdProcessState := CmdProcessState cmd |}.

Definition set_ProcessState (cmd : Cmd) (st : option ProcessState) : Cmd :=
  {| Path := Path cmd; Args := Args cmd; CmdEnv := CmdEnv cmd; Dir := Dir cmd;
     Stdin := Stdin cmd; Stdout := Stdout cmd; Stderr := Stderr cmd;
     ExtraFiles := ExtraFiles cmd; Setsid := Setsid cmd;
     Setctty := Setctty cmd; Ctty := Ctty cmd;
     Process := Process cmd; CmdProcessState := st |}.

(** [cmd.Start()]. *)
Definition cmd_Start (cmd : Cmd) : M (Cmd * error) :=
  emit (EvCmdStart cmd) ;;
  a <- answer ;;
  match a_err a with
  | Some e => ret (cmd, Some e)
  | None => ret (set_started cmd, None)
  end.

(** [cmd.Wait()]: an error at once when the command was not started;
    otherwise the wait of the operating system, whose state (nil when the
    wait itself failed) is stored in [ProcessState]. *)
Definition cmd_Wait (cmd : Cmd) : M (Cmd * error) :=
  emit EvCmdWait ;;
  if Process cmd then
    a <- answer ;;
    ret (set_ProcessState cmd (a_state a), a_err a)
  else ret (cmd, Some "exec: not started").

Definition channel_CloseWrite (ch : option Stream) : M error :=
  emit (EvCloseWrite ch) ;; a <- answer ;; ret (a_err a).

Definition channel_SendRequest (ch : option Stream) (name : string)
    (wantReply : bool) (payload : list byte) : M error :=
  emit (EvSendRequest ch name wantReply payload) ;; a <- answer ;; ret (a_err a).

Definition channel_Close (ch : option Stream) : M error :=
  emit (EvChannelClose ch) ;; a <- answer ;; ret (a_err a).

Definition file_Close (f : option File) : M error :=
  match f with
  | Some f => emit (EvFileClose f) ;; a <- answer ;; ret (a_err a)
  | None => ret (Some "invalid argument")
  end.

(** The exit code [finishCmd] reports for a command that was waited for. *)
Definition exitcode_of (cmd : Cmd) : Z :=
  match CmdProcessState cmd with
  | Some st => uint32_of_int (ExitCode st)
  | None => 255
  end.

Definition finishCmd (c : Channel) (cmd : Cmd) : M Cmd :=
  r <- cmd_Wait cmd ;;
  let '(cmd, err) := r in
  on_err err (fun e =>
    emit (EvLog Error "error in waiting for a process to finish" [("err", e)])) ;;
  err <- channel_CloseWrite (channel c) ;;
  on_err err (fun e =>
    emit (EvLog Error "error in closing channel write" [("err", e)])) ;;
  let exitcode := exitcode_of cmd in
  err <- channel_SendRequest (channel c) "exit-status" false
           (BigEndian_AppendUint32 [] exitcode) ;;
  on_err err (fun e =>
    emit (EvLog Error "failed to send exit code to remote" [("err", e)])) ;;
  err <- channel_Close (channel c) ;;
  on_err err (fun e =>
    emit (EvLog Error "error in closing channel" [("err", e)])) ;;
  ret cmd.

(** How a goroutine ends: it returns, or it stays blocked on a receive
    that nothing will ever answer. *)
Inductive Outcome := Returned | Blocked.

Definition ttyCmd (c : Channel) (cmd : string) (args : list string) : M Outcome :=
  let torun := exec_Command cmd args in
  let torun :=
    {| Path := Path torun; Args := Args torun;
       CmdEnv := append_all
                   (append_all (CmdEnv torun)
                      ["USER=" ++ Username (user c); "HOME=" ++ HomeDir (user c)])
                   (env c);
       Dir := HomeDir (user c);
       Stdin := Some (WireFile (tty c));
       Stdout := Some (WireFile (tty c));
       Stderr := Some (WireFile (tty c));
       ExtraFiles := [tty c];
       Setsid := true; Setctty := true; Ctty := 3;
       Process := Process torun; CmdProcessState := CmdProcessState torun |} in
  let close_tty :=
    err <- file_Close (tty c) ;;
    on_err err (fun e => emit (EvLog Info "error in closing tty" [("err", e)])) in
  r <- cmd_Start torun ;;
  match r with
  | (_, Some e) =>
      emit (EvLog Error "failed to start command" [("err", e); ("cmd", cmd)]) ;;
      close_tty ;;
      ret Blocked
  | (torun, None) =>
      emit (EvGo TaskCopyToPty) ;;
      emit (EvGo TaskCopyFromPty) ;;
      close_tty ;;
      emit EvRecvWaiter ;;
      finishCmd c torun ;;
      ret Returned
  end.

Definition noTtyCmd (c : Channel) (cmd : string) (args : list string) : M Outcome :=
  let torun := exec_Command cmd args in
  let torun :=
    {| Path := Path torun; Args := Args torun; CmdEnv := CmdEnv torun;
       Dir := Dir torun; Stdin := Stdin torun;
       Stdout := Some (WireChannel (channel c));
       Stderr := Some (WireChannel (channel c));
       ExtraFiles := ExtraFiles torun;
       Setsid := Setsid torun; Setctty := Setctty torun; Ctty := Ctty torun;
       Process := Process torun; CmdProcessState := CmdProcessState torun |} in
  r <- cmd_Start torun ;;
  match r with
  | (torun, Some e) =>
      emit (EvLog Error "failed to start command" [("err", e); ("cmd", cmd)]) ;;
      finishCmd c torun ;;
      ret Returned
  | (torun, None) =>
      finishCmd c torun ;;
      ret Returned
  end.

(** The body of the goroutine [processReq] starts for a "shell" or an "exec"
    request, run on the channel as it is when the goroutine gets to it. *)
Definition run_process (c : Channel) (t : Task) : M Outcome :=
  match t with
  | TaskShell =>
      o <- ttyCmd c "bash" [] ;;
      match o with
      | Returned => emit EvWgDone ;; ret Returned
      | Blocked => ret Blocked
      end
  | TaskExec commands =>
      o <- (match tty c with
            | None => noTtyCmd c "bash" commands
            | Some _ => ttyCmd c "bash" commands
            end) ;;
      match o with
      | Returned => emit EvWgDone ;; ret Returned
      | Blocked => ret Blocked
      end
  | _ => ret Returned
  end.

(** A trace without its log entries. *)
Definition calls (tr : list Event) : list Event :=
  filter (fun e => match e with EvLog _ _ _ => false | _ => true end) tr.

(** The out-of-band messages a trace sent, and the channels it closed. *)
Definition sent (tr : list Event) : list (string * bool * list byte) :=
  flat_map (fun e => match e with
                     | EvSendRequest _ name wantReply payload =>
                         [(name, wantReply, payload)]
                     | _ => []
                     end) tr.

Definition closed (tr : list Event) : list (option Stream) :=
  flat_map (fun e => match e with EvChannelClose ch => [ch] | _ => [] end) tr.

End Bridge.

(** ** channel.go: the server connection *)

Module Conn.
Import Go Env Chan Bridge.

(** [ServerConn]. [chans] holds the channels as they are when they are
    read; the wait group lives in the trace. *)
Record ServerConn := {
  sshcon : Transport;
  conn_baseCancel : CancelFunc;
  chans : list Channel;
  conn_user : User
}.

(** The [Channel] literal of [procesNewChan], for an accepted stream and a
    scope derived from the connection's. *)
Definition newChannel (s : ServerConn) (ch : option Stream)
    (basecancel : CancelFunc) : Channel :=
  {| channel := ch; env := []; user := conn_user s;
     tty := None; pty := None;
     baseCancel := basecancel; sftpServer := None |}.

Definition Wait (s : ServerConn) : M unit := emit EvWgWait.

Definition transport_Close (t : Transport) : M error :=
  emit (EvTransportClose t) ;; a <- answer ;; ret (a_err a).

(** One round of the [range s.chans] loop of [Close]. *)
Definition close_channel (errs : list error) (ch : Channel) : M (list error) :=
  emit (EvCancel (baseCancel ch)) ;;
  errs <- match pty ch with
          | Some _ => e <- file_Close (pty ch) ;; ret (append errs e)
          | None => ret errs
          end ;;
  errs <- match tty ch with
          | Some _ => e <- file_Close (tty ch) ;; ret (append errs e)
          | None => ret errs
          end ;;
  match channel ch with
  | Some _ => e <- channel_Close (channel ch) ;; ret (append errs e)
  | None => ret errs
  end.

Fixpoint close_channels (errs : list error) (l : list Channel) : M (list error) :=
  match l with
  | [] => ret errs
  | ch :: rest => errs <- close_channel errs ch ;; close_channels errs rest
  end.

Definition Close (s : ServerConn) : M (option (list string)) :=
  Wait s ;;
  errs <- close_channels [] (chans s) ;;
  emit (EvCancel (conn_baseCancel s)) ;;
  e <- transport_Close (sshcon s) ;;
  ret (errors_Join (append errs e)).

(** What [Close] is to do for one recorded channel: cancel its scope, then
    close its pty, its tty and its stream, each if it is there. *)
Definition release (ch : Channel) : list Event :=
  EvCancel (baseCancel ch)
  :: append_all
       (match pty ch with Some f => [EvFileClose f] | None => [] end)
       (append_all
          (match tty ch with Some f => [EvFileClose f] | None => [] end)
          (match channel ch with Some _ => [EvChannelClose (channel ch)] | None => [] end)).

(** The whole teardown, in order. *)
Definition teardown (s : ServerConn) : list Event :=
  EvWgWait
  :: append_all (flat_map release (chans s))
       [EvCancel (conn_baseCancel s); EvTransportClose (sshcon s)].

(** How many closes the teardown of a channel makes. *)
Definition present {A} (o : option A) : nat :=
  match o with
  | Some _ => 1
  | None => 0
  end.

Definition closes_in (ch : Channel) : nat :=
  (present (pty ch) + present (tty ch) + present (channel ch))%nat.

(** The closes of the whole teardown: those of the channels, then the
    transport's. *)
Definition closes (s : ServerConn) : nat :=
  (list_sum (map closes_in (chans s)) + 1)%nat.

(** The next [n] answers of a script; past its end the environment raises
    no error. *)
Fixpoint answers (n : nat) (script : list Answer) : list Answer :=
  match n with
  | O => []
  | S n' =>
      match script with
      | [] => silent :: answers n' []
      | a :: rest => a :: answers n' rest
      end
  end.

End Conn.

(** ** The peer's side of the wire formats *)

Module Wire.
Import Go.

Definition bytes_of (s : string) : list byte := list_byte_of_string s.

(** A 32-bit value, most significant byte first. *)
Definition put_uint32 (v : Z) : list byte := BigEndian_AppendUint32 [] v.

(** A string: its length in bytes as a 32-bit value, then its bytes. *)
Definition put_string (s : string) : list byte :=
  append_all (put_uint32 (len (bytes_of s))) (bytes_of s).

Definition put_strings (l : list string) : list byte := flat_map put_string l.

(** The window-size quad. *)
Definition put_window (w h pw ph : Z) : list byte :=
  append_all (put_uint32 w)
    (append_all (put_uint32 h) (append_all (put_uint32 pw) (put_uint32 ph))).

(** A string the 32-bit length prefix can describe. *)
Definition fits (s : string) : Prop := len (bytes_of s) < 2 ^ 32.

End Wire.

(** ** Sample inputs *)

Module Sample.
Import Go Env Chan Conn Wire.

Definition alice : User := {| Username := "alice"; HomeDir := "/home/alice" |}.

Definition conn : ServerConn :=
  {| sshcon := 0%nat; conn_baseCancel := 0%nat; chans := [];
     conn_user := alice |}.

(** A channel as [procesNewChan] makes it. *)
Definition chan : Channel := newChannel conn (Some 7%nat) 1%nat.

(** A world that answers every call with success. *)
Definition world : World := {| w_script := []; w_fresh := 0%nat; w_trace := [] |}.

Definition pty_req : Request :=
  {| Type_ := "pty-req"; WantReply := true;
     Payload := append_all (put_string "xterm")
                  (append_all (put_window 80 24 0 0) (put_string "")) |}.

Definition window_change (cols rows : Z) : Request :=
  {| Type_ := "window-change"; WantReply := true;
     Payload := put_window cols rows 0 0 |}.

Definition shell (payload : list byte) : Request :=
  {| Type_ := "shell"; WantReply := true; Payload := payload |}.

Definition exec (tokens : list string) : Request :=
  {| Type_ := "exec"; WantReply := true; Payload := put_strings tokens |}.

(** A connection with one channel that holds a pty, a tty and a stream,
    and a world in which the second close fails. *)
Definition closing : ServerConn :=
  {| sshcon := 0%nat; conn_baseCancel := 0%nat;
     chans := [set_pty_tty chan (Some 3%nat) (Some 4%nat)];
     conn_user := alice |}.

Definition tty_gone : World :=
  {| w_script := [silent; {| a_err := Some "file already closed"; a_state := None |}];
     w_fresh := 5%nat; w_trace := [] |}.



End Sample.

(** ** What a trace shows *)

Module Obs.
Import Go Env.

(** The replies sent, the deltas added to the wait group and the resize
    calls made, each in order. *)
Definition replies (tr : list Event) : list (bool * string) :=
  flat_map (fun e => match e with EvReply ok payload => [(ok, payload)] | _ => [] end) tr.

Definition wg_adds (tr : list Event) : list Z :=
  flat_map (fun e => match e with EvWgAdd delta => [delta] | _ => [] end) tr.

Definition ioctls (tr : list Event) : list (Z * Z * Z) :=
  flat_map (fun e => match e with
                     | EvIoctlSetWinsize fd row col => [(fd, row, col)]
                     | _ => []
                     end) tr.

(** The files closed, the ptys opened and the times the wait group was told
    a goroutine is done. *)
Definition file_closes (tr : list Event) : list File :=
  flat_map (fun e => match e with EvFileClose f => [f] | _ => [] end) tr.

Definition pty_opens (tr : list Event) : nat :=
  List.length (filter (fun e => match e with EvPtyOpen => true | _ => false end) tr).

Definition wg_dones (tr : list Event) : nat :=
  List.length (filter (fun e => match e with EvWgDone => true | _ => false end) tr).

(** The request types that start a goroutine when they succeed. *)
Definition starts_work (ty : string) : bool :=
  ((ty =? "subsystem") || (ty =? "shell") || (ty =? "exec"))%string.

(** The request types the [switch] of [processReq] has a case for. *)
Definition known_type (ty : string) : bool :=
  ((ty =? "subsystem") || (ty =? "pty-req") || (ty =? "window-change")
   || (ty =? "env") || (ty =? "shell") || (ty =? "exec"))%string.

End Obs.

(** ** channel.go: accepting connections and channels *)

Module Accept.
Import Go Env Chan Conn.

(** [ssh.NewChannel]: the type the peer asks for. What [Accept] answers
    comes from the world. *)
Record NewChannel := { ChannelType : string }.

(** [ssh.RejectionReason]; the package uses this one. *)
Inductive RejectionReason := UnknownChannelType.

(** A [net.Conn], with the user name the handshake reports for it. *)
Record NetConn := { remote_user : string }.

(** The calls of this part of the package, in the order they are made:
    those of the channel code, and the ones on connections and new channels. *)
Inductive Call :=
| Base (e : Event)
| NewServerConn (conn : NetConn)
| UserLookup (name : string)
| GoDiscardRequests
| Reject (nc : NewChannel) (reason : RejectionReason) (message : string)
| AcceptChannel (nc : NewChannel)
| GoLoop (c : Channel)
| SshconWait (t : Transport).

Record State := {
  s_script : list Answer;
  s_fresh : nat;
  s_calls : list Call
}.

(** State passing, as for the channel code. *)
Definition M (A : Type) : Type := State -> A * State.

Definition ret {A} (a : A) : M A := fun st => (a, st).

Definition bind {A B} (m : M A) (k : A -> M B) : M B :=
  fun st => let (a, st') := m st in k a st'.

Definition call (e : Call) : M unit :=
  fun st => (tt, {| s_script := s_script st; s_fresh := s_fresh st;
                    s_calls := append (s_calls st) e |}).

Definition answer : M Answer :=
  fun st => match s_script st with
            | [] => (silent, st)
            | a :: rest =>
                (a, {| s_script := rest; s_fresh := s_fresh st;
                       s_calls := s_calls st |})
            end.

Definition alloc : M nat :=
  fun st => (s_fresh st, {| s_script := s_script st; s_fresh := S (s_fresh st);
                            s_calls := s_calls st |}).

Declare Scope conn_scope.
Notation "x <- m ;; k" := (bind m (fun x => k))
  (at level 61, m at next level, right associativity) : conn_scope.
Notation "m ;; k" := (bind m (fun _ => k))
  (at level 61, right associativity) : conn_scope.
Local Open Scope conn_scope.

Definition set_chans (s : ServerConn) (l : list Channel) : ServerConn :=
  {| sshcon := sshcon s; conn_baseCancel := conn_baseCancel s;
     chans := l; conn_user := conn_user s |}.

(** [NewFromConn]. [lookup] is [user.Lookup]: the local user of a name, or
    the text of the error. The error a [Close] returns is dropped. *)
Definition NewFromConn (lookup : string -> User + string) (conn : NetConn)
  : M (option ServerConn * error) :=
  call (NewServerConn conn) ;;
  a <- answer ;;
  match a_err a with
  | Some err => ret (None, Some ("failed to create a new connection: " ++ err))
  | None =>
      sshconn <- alloc ;;
      call (UserLookup (remote_user conn)) ;;
      match lookup (remote_user conn) with
      | inr err =>
          call (Base (EvTransportClose sshconn)) ;;
          answer ;;
          ret (None,
               Some ("cannot find user " ++ remote_user conn ++ ": " ++ err))
      | inl user =>
          call GoDiscardRequests ;;
          baseCancel <- alloc ;;
          ret (Some {| sshcon := sshconn; conn_baseCancel := baseCancel;
                       chans := []; conn_user := user |}, None)
      end
  end.

(** [procesNewChan]. The error [Reject] returns is dropped; a failed
    [Accept] is logged and the function goes on with a nil stream. *)
Definition procesNewChan (s : ServerConn) (newchannel : NewChannel) : M ServerConn :=
  let channeltype := ChannelType newchannel in
  if negb (channeltype =? "session")%string then
    call (Reject newchannel UnknownChannelType channeltype) ;;
    answer ;;
    ret s
  else
    call (AcceptChannel newchannel) ;;
    a <- answer ;;
    channel <- match a_err a with
               | Some err =>
                   call (Base (EvLog Info "failed to accept channel" [("err", err)])) ;;
                   ret None
               | None => ch <- alloc ;; ret (Some ch)
               end ;;
    basecancel <- alloc ;;
    let c := newChannel s channel basecancel in
    let s := set_chans s (append (chans s) c) in
    call (Base (EvWgAdd 1)) ;;
    call (GoLoop c) ;;
    ret s.

(** The [for] of [ServerConn.Loop], over the notifications delivered before
    the source is closed or the connection's scope is cancelled. *)
Fixpoint serve (s : ServerConn) (newchans : list NewChannel) : M ServerConn :=
  match newchans with
  | [] => ret s
  | newchan :: rest => s' <- procesNewChan s newchan ;; serve s' rest
  end.

(** [ServerConn.Loop]: the loop, then the deferred [s.sshcon.Wait()]. *)
Definition Loop (s : ServerConn) (newchans : list NewChannel) : M ServerConn :=
  s' <- serve s newchans ;;
  call (SshconWait (sshcon s)) ;;
  answer ;;
  ret s'.

(** The channel loops started, the rejections made and the additions to the
    wait group, each in order. *)
Definition loops (calls : list Call) : list Channel :=
  flat_map (fun e => match e with GoLoop c => [c] | _ => [] end) calls.

Definition rejections (calls : list Call) : list (string * string) :=
  flat_map (fun e => match e with
                     | Reject nc _ message => [(ChannelType nc, message)]
                     | _ => []
                     end) calls.

Definition additions (calls : list Call) : list Z :=
  flat_map (fun e => match e with Base (EvWgAdd d) => [d] | _ => [] end) calls.

Definition is_session (nc : NewChannel) : bool :=
  (ChannelType nc =? "session")%string.

End Accept.

(** ** More sample inputs *)

Module Demo.
Import Go Env Chan Conn Wire.

Definition env_req (name value : string) : Request :=
  {| Type_ := "env"; WantReply := true;
     Payload := append_all (put_string name) (put_string value) |}.

Definition subsystem (name : string) : Request :=
  {| Type_ := "subsystem"; WantReply := true; Payload := put_string name |}.

(** A channel that holds a pty/tty pair. *)
Definition with_pty : Channel := set_pty_tty Sample.chan (Some 3%nat) (Some 4%nat).

(** A world whose first call fails. *)
Definition failing (err : string) : World :=
  {| w_script := [{| a_err := Some err; a_state := None |}];
     w_fresh := 5%nat; w_trace := [] |}.

Definition users (name : string) : User + string :=
  if (name =? "alice")%string then inl Sample.alice
  else inr ("user: unknown user " ++ name).

Definition fresh_state : Accept.State :=
  {| Accept.s_script := []; Accept.s_fresh := 0%nat; Accept.s_calls := [] |}.

End Demo.

(** * Properties *)

(** ** Integers and bytes *)

Section GoFacts.
Import Go.

Lemma byte_val_range (b : byte) : 0 <= byte_val b < 256.
Proof.
  unfold byte_val. pose proof (Byte.to_N_bounded b). lia.
Qed.

Lemma lor_below (n a b : Z) :
  0 <= n -> 0 <= a < 2 ^ n -> 0 <= b < 2 ^ n -> 0 <= Z.lor a b < 2 ^ n.
Proof.
  intros Hn Ha Hb. split.
  - apply Z.lor_nonneg. lia.
  - destruct (Z.eq_dec (Z.lor a b) 0) as [E | E].
    + rewrite E. apply Z.pow_pos_nonneg; lia.
    + assert (0 <= Z.lor a b) by (apply Z.lor_nonneg; lia).
      apply Z.log2_lt_pow2; [lia |].
      rewrite Z.log2_lor by lia.
      destruct (Z.eq_dec a 0) as [-> | Na], (Z.eq_dec b 0) as [-> | Nb];
        try (cbn in E; congruence).
      * rewrite Z.max_r by (cbn; apply Z.log2_nonneg).
        apply Z.log2_lt_pow2; lia.
      * rewrite Z.max_l by (cbn; apply Z.log2_nonneg).
        apply Z.log2_lt_pow2; lia.
      * apply Z.max_lub_lt; apply Z.log2_lt_pow2; lia.
Qed.

Lemma shiftl_byte_below (b : byte) (k : Z) :
  0 <= k <= 24 -> 0 <= Z.shiftl (byte_val b) k < 2 ^ 32.
Proof.
  intros Hk. pose proof (byte_val_range b) as Hb.
  rewrite Z.shiftl_mul_pow2 by lia.
  assert (0 < 2 ^ k) by (apply Z.pow_pos_nonneg; lia).
  assert (2 ^ k <= 2 ^ 24) by (apply Z.pow_le_mono_r; lia).
  change (2 ^ 32) with (256 * 2 ^ 24). nia.
Qed.

Lemma be_uint32_range (b0 b1 b2 b3 : byte) : 0 <= be_uint32 b0 b1 b2 b3 < 2 ^ 32.
Proof.
  unfold be_uint32.
  repeat apply lor_below; try lia.
  - pose proof (byte_val_range b3). lia.
  - apply shiftl_byte_below. lia.
  - apply shiftl_byte_below. lia.
  - apply shiftl_byte_below. lia.
Qed.

Lemma Uint32_checked_range (b : list byte) (v : Z) :
  BigEndian_Uint32_checked b = Some v -> 0 <= v < 2 ^ 32.
Proof.
  destruct b as [| b0 [| b1 [| b2 [| b3 rest]]]]; try discriminate.
  cbn [BigEndian_Uint32_checked]. intros H.
  assert (v = be_uint32 b0 b1 b2 b3) as -> by congruence.
  apply be_uint32_range.
Qed.

Lemma Uint32_range (b : list byte) : 0 <= BigEndian_Uint32 b < 2 ^ 32.
Proof.
  unfold BigEndian_Uint32.
  destruct (BigEndian_Uint32_checked b) eqn:E.
  - eapply Uint32_checked_range; eauto.
  - lia.
Qed.

Lemma wrap_int_id (z : Z) : - 2 ^ 63 <= z < 2 ^ 63 -> wrap_int z = z.
Proof.
  intros H. unfold wrap_int. rewrite Z.mod_small; lia.
Qed.

Lemma int_of_uint32_id (x : Z) : 0 <= x < 2 ^ 32 -> int_of_uint32 x = x.
Proof.
  intros H. apply wrap_int_id. lia.
Qed.

Lemma int_add_4 (l : Z) : 0 <= l < 2 ^ 32 -> int_add l 4 = l + 4.
Proof.
  intros H. apply wrap_int_id. lia.
Qed.

Lemma len_nonneg {A} (b : list A) : 0 <= len b.
Proof. unfold len. lia. Qed.

(** Past the length guards of the parsers the decoder is handed four
    bytes, so [binary.BigEndian.Uint32] does not panic. *)
Lemma Uint32_checked_defined (b : list byte) (lo : Z) :
  0 <= lo -> lo + 4 <= len b ->
  BigEndian_Uint32_checked (slice b lo (lo + 4)) <> None.
Proof.
  unfold len, slice. intros H0 H.
  replace (lo + 4 - lo) with 4 by lia.
  assert (L : (4 <= List.length (skipn (Z.to_nat lo) b))%nat)
    by (rewrite length_skipn; lia).
  destruct (skipn (Z.to_nat lo) b) as [| b0 [| b1 [| b2 [| b3 rest]]]];
    cbn in L; try lia.
  cbn. discriminate.
Qed.

Lemma testbit_255 (n : Z) : 0 <= n -> Z.testbit 255 n = (n <? 8).
Proof.
  intros Hn. change 255 with (Z.ones 8). apply Z.testbit_ones_nonneg; lia.
Qed.

Lemma testbit_above (v n : Z) :
  0 <= v < 2 ^ 32 -> 32 <= n -> Z.testbit v n = false.
Proof.
  intros Hv Hn. destruct (Z.eq_dec v 0) as [-> | Nz].
  - apply Z.testbit_0_l.
  - apply Z.bits_above_log2; [lia |].
    assert (Z.log2 v < 32) by (apply Z.log2_lt_pow2; lia). lia.
Qed.

Lemma testbit_field (v k n : Z) :
  0 <= k -> 0 <= n ->
  Z.testbit (Z.shiftl (Z.land (Z.shiftr v k) 255) k) n
  = (k <=? n) && (n <? k + 8) && Z.testbit v n.
Proof.
  intros Hk Hn. rewrite Z.shiftl_spec by lia.
  destruct (Z.leb_spec k n) as [L | L].
  - rewrite Z.land_spec, Z.shiftr_spec, testbit_255 by lia.
    replace (n - k + k) with n by lia.
    destruct (Z.ltb_spec (n - k) 8), (Z.ltb_spec n (k + 8)); try lia;
      cbn; now rewrite ?andb_true_r, ?andb_false_r.
  - rewrite Z.testbit_neg_r by lia. reflexivity.
Qed.

Lemma byte_val_be_byte (v i : Z) :
  byte_val (be_byte v i) = Z.land (Z.shiftr v (8 * (3 - i))) 255.
Proof.
  unfold byte_val, be_byte.
  set (x := Z.land (Z.shiftr v (8 * (3 - i))) 255).
  assert (Hx : 0 <= x < 256).
  { subst x. change 255 with (Z.ones 8). rewrite Z.land_ones by lia.
    apply Z.mod_pos_bound. lia. }
  destruct (Byte.of_N (Z.to_N x)) as [b |] eqn:E.
  - apply Byte.to_of_N in E. rewrite E. lia.
  - apply Byte.of_N_None_iff in E. lia.
Qed.

(** Decoding the four bytes of [AppendUint32] gives the value back. *)
Lemma be_uint32_be_byte (v : Z) :
  0 <= v < 2 ^ 32 ->
  be_uint32 (be_byte v 0) (be_byte v 1) (be_byte v 2) (be_byte v 3) = v.
Proof.
  intros Hv. unfold be_uint32. rewrite !byte_val_be_byte.
  change (8 * (3 - 0)) with 24. change (8 * (3 - 1)) with 16.
  change (8 * (3 - 2)) with 8. change (8 * (3 - 3)) with 0.
  rewrite <- (Z.shiftl_0_r (Z.land (Z.shiftr v 0) 255)).
  apply Z.bits_inj'. intros n Hn.
  rewrite !Z.lor_spec, !testbit_field by lia.
  destruct (Z.ltb_spec n 32) as [L | L].
  - destruct (Z.testbit v n); rewrite ?andb_false_r, ?andb_true_r; [| reflexivity].
    destruct (Z.leb_spec 0 n), (Z.leb_spec 8 n), (Z.leb_spec 16 n),
      (Z.leb_spec 24 n), (Z.ltb_spec n (0 + 8)), (Z.ltb_spec n (8 + 8)),
      (Z.ltb_spec n (16 + 8)), (Z.ltb_spec n (24 + 8)); try lia; reflexivity.
  - rewrite (testbit_above v n) by lia. now rewrite !andb_false_r.
Qed.

End GoFacts.

(** ** Binary request codec *)

Section CodecFacts.
Import Go Codec Wire.

Lemma slice_after_prefix {A} (b : list A) (l : Z) :
  slice b 4 (l + 4) = firstn (Z.to_nat l) (skipn 4 b).
Proof.
  unfold slice. now replace (l + 4 - 4) with l by lia.
Qed.

Lemma parseString_short (b : list byte) :
  len b < 4 ->
  parseString b = ("", 0, Some ("number of bytes in less than 4: " ++ itoa (len b))).
Proof.
  intros H. unfold parseString.
  destruct (Z.ltb_spec (len b) 4); [reflexivity | lia].
Qed.

Lemma parseString_truncated (b : list byte) :
  4 <= len b -> len b < BigEndian_Uint32 (slice b 0 4) + 4 ->
  exists e, parseString b = ("", 0, Some e).
Proof.
  intros H4 H. unfold parseString.
  destruct (Z.ltb_spec (len b) 4); [lia |].
  pose proof (Uint32_range (slice b 0 4)) as R.
  rewrite int_of_uint32_id, int_add_4 by assumption.
  destruct (Z.ltb_spec (len b) (BigEndian_Uint32 (slice b 0 4) + 4)); [| lia].
  eexists. reflexivity.
Qed.

Lemma parseString_ok (b : list byte) :
  4 <= len b -> BigEndian_Uint32 (slice b 0 4) + 4 <= len b ->
  parseString b
  = (string_of_list_byte
       (firstn (Z.to_nat (BigEndian_Uint32 (slice b 0 4))) (skipn 4 b)),
     BigEndian_Uint32 (slice b 0 4) + 4, None).
Proof.
  intros H4 H. unfold parseString.
  destruct (Z.ltb_spec (len b) 4); [lia |].
  pose proof (Uint32_range (slice b 0 4)) as R.
  rewrite int_of_uint32_id, int_add_4 by assumption.
  destruct (Z.ltb_spec (len b) (BigEndian_Uint32 (slice b 0 4) + 4)); [lia |].
  now rewrite slice_after_prefix.
Qed.

(** What a successful parse consumed: the prefix and no more than the
    buffer. *)
Lemma parseString_consumed (b : list byte) (s : string) (n : Z) :
  parseString b = (s, n, None) -> 4 <= n <= len b.
Proof.
  unfold parseString.
  destruct (Z.ltb_spec (len b) 4); [discriminate |].
  pose proof (Uint32_range (slice b 0 4)) as R.
  rewrite int_of_uint32_id, int_add_4 by assumption.
  destruct (Z.ltb_spec (len b) (BigEndian_Uint32 (slice b 0 4) + 4));
    [discriminate |].
  intros [= _ <-]. lia.
Qed.

Lemma put_uint32_decode (v : Z) (rest : list byte) :
  0 <= v < 2 ^ 32 ->
  BigEndian_Uint32 (slice (append_all (put_uint32 v) rest) 0 4) = v.
Proof.
  intros Hv. unfold put_uint32, BigEndian_AppendUint32, append_all, slice.
  cbn. unfold BigEndian_Uint32. cbn [BigEndian_Uint32_checked].
  now apply be_uint32_be_byte.
Qed.

Lemma len_put_uint32 (v : Z) : len (put_uint32 v) = 4.
Proof. reflexivity. Qed.

Lemma len_app {A} (a b : list A) : len (append_all a b) = len a + len b.
Proof. unfold len, append_all. rewrite length_app. lia. Qed.

(** The parser inverts the peer's encoding of a string, and stops at its
    end. *)
Lemma parseString_put_string (s : string) (rest : list byte) :
  fits s ->
  parseString (append_all (put_string s) rest) = (s, len (bytes_of s) + 4, None)
  /\ slice_from (append_all (put_string s) rest) (len (bytes_of s) + 4) = rest.
Proof.
  intros Hs. unfold fits in Hs.
  pose proof (len_nonneg (bytes_of s)) as Hl.
  assert (E : append_all (put_string s) rest
              = append_all (put_uint32 (len (bytes_of s)))
                  (append_all (bytes_of s) rest)).
  { unfold put_string, append_all. now rewrite <- app_assoc. }
  assert (D : BigEndian_Uint32 (slice (append_all (put_string s) rest) 0 4)
              = len (bytes_of s)).
  { rewrite E. apply put_uint32_decode. lia. }
  split.
  - rewrite parseString_ok.
    + rewrite D. f_equal. f_equal.
      rewrite E. unfold append_all, put_uint32, BigEndian_AppendUint32, append_all.
      cbn [app skipn]. unfold len. rewrite Nat2Z.id.
      rewrite firstn_app, Nat.sub_diag, firstn_all. cbn [firstn].
      rewrite app_nil_r. apply string_of_list_byte_of_string.
    + rewrite E, !len_app, len_put_uint32. pose proof (len_nonneg rest). lia.
    + rewrite D, E, !len_app, len_put_uint32. pose proof (len_nonneg rest). lia.
  - rewrite E. unfold slice_from, append_all, put_uint32, BigEndian_AppendUint32,
      append_all, len.
    replace (Z.to_nat (Z.of_nat (List.length (bytes_of s)) + 4))
      with (List.length (bytes_of s) + 4)%nat by lia.
    cbn [app]. rewrite <- skipn_skipn. cbn [skipn].
    rewrite skipn_app, Nat.sub_diag, skipn_all. reflexivity.
Qed.

End CodecFacts.

Section WindowFacts.
Import Go Codec Wire.

Lemma parseWindowSize_short (b : list byte) :
  len b < 16 ->
  parseWindowSize b
  = (0, 0, 0, 0, Some ("number of bytes is less than 16: " ++ itoa (len b))).
Proof.
  intros H. unfold parseWindowSize.
  destruct (Z.ltb_spec (len b) 16); [reflexivity | lia].
Qed.

Lemma parseWindowSize_fields (a0 a1 a2 a3 b0 b1 b2 b3 c0 c1 c2 c3 d0 d1 d2 d3 : byte)
    (rest : list byte) :
  parseWindowSize
    (a0 :: a1 :: a2 :: a3 :: b0 :: b1 :: b2 :: b3
     :: c0 :: c1 :: c2 :: c3 :: d0 :: d1 :: d2 :: d3 :: rest)
  = (be_uint32 a0 a1 a2 a3, be_uint32 b0 b1 b2 b3,
     be_uint32 c0 c1 c2 c3, be_uint32 d0 d1 d2 d3, None).
Proof.
  unfold parseWindowSize.
  match goal with |- context [len ?l <? 16] => destruct (Z.ltb_spec (len l) 16) as [L | L] end.
  - unfold len in L. cbn [List.length] in L. lia.
  - reflexivity.
Qed.

Lemma sixteen_bytes (b : list byte) :
  16 <= len b ->
  exists a0 a1 a2 a3 b0 b1 b2 b3 c0 c1 c2 c3 d0 d1 d2 d3 rest,
    b = a0 :: a1 :: a2 :: a3 :: b0 :: b1 :: b2 :: b3
        :: c0 :: c1 :: c2 :: c3 :: d0 :: d1 :: d2 :: d3 :: rest.
Proof.
  unfold len. intros H.
  do 16 (destruct b as [| ? b]; [cbn [List.length] in H; lia |]).
  repeat eexists.
Qed.

(** The parser inverts the peer's encoding of a window size. *)
Lemma parseWindowSize_put_window (w h pw ph : Z) (rest : list byte) :
  0 <= w < 2 ^ 32 -> 0 <= h < 2 ^ 32 -> 0 <= pw < 2 ^ 32 -> 0 <= ph < 2 ^ 32 ->
  parseWindowSize (append_all (put_window w h pw ph) rest) = (w, h, pw, ph, None).
Proof.
  intros Hw Hh Hpw Hph.
  unfold put_window, put_uint32, BigEndian_AppendUint32, append_all.
  cbn [app]. rewrite parseWindowSize_fields.
  now rewrite !be_uint32_be_byte.
Qed.

End WindowFacts.

(** C8. Parsing a length-prefixed string fails, consuming nothing, on a
    buffer of fewer than 4 bytes and on a buffer shorter than the decoded
    big-endian length plus 4; otherwise it returns the bytes that follow the
    prefix, as many as the length says, and reports length+4 bytes consumed.
    The bytes 00 00 00 03 'a' 'b' 'c' 'X' 'Y' 'Z' give ("abc", 7, nil) and
    leave XYZ. *)
Theorem parseString_spec :
  (forall b, Go.len b < 4 ->
     exists e, Codec.parseString b = ("", 0, Some e)) /\
  (forall b, Go.len b < Go.BigEndian_Uint32 (Go.slice b 0 4) + 4 ->
     exists e, Codec.parseString b = ("", 0, Some e)) /\
  (forall b, 4 <= Go.len b ->
     Go.BigEndian_Uint32 (Go.slice b 0 4) + 4 <= Go.len b ->
     Codec.parseString b
     = (string_of_list_byte
          (firstn (Z.to_nat (Go.BigEndian_Uint32 (Go.slice b 0 4))) (skipn 4 b)),
        Go.BigEndian_Uint32 (Go.slice b 0 4) + 4, None)) /\
  Codec.parseString [x00; x00; x00; x03; x61; x62; x63; x58; x59; x5a]
  = ("abc", 7, None) /\
  Go.slice_from [x00; x00; x00; x03; x61; x62; x63; x58; x59; x5a] 7
  = [x58; x59; x5a].
Proof.
  repeat split.
  - intros b H. rewrite parseString_short by assumption. eexists. reflexivity.
  - intros b H. destruct (Z.lt_ge_cases (Go.len b) 4) as [S | L].
    + rewrite parseString_short by assumption. eexists. reflexivity.
    + now apply parseString_truncated.
  - intros b H4 H. now apply parseString_ok.
Qed.

Lemma parseString_spec_witness :
  (exists e, Codec.parseString [x00; x00; x03] = ("", 0, Some e)) /\
  (exists e, Codec.parseString [x00; x00; x00; x03; x61; x62] = ("", 0, Some e)) /\
  Codec.parseString [x00; x00; x00; x02; x6c; x73; x58] = ("ls", 6, None).
Proof.
  destruct parseString_spec as (Hshort & Htrunc & Hok & _).
  split; [| split].
  - apply (Hshort [x00; x00; x03]). vm_compute. reflexivity.
  - apply (Htrunc [x00; x00; x00; x03; x61; x62]). vm_compute. reflexivity.
  - apply (Hok [x00; x00; x00; x02; x6c; x73; x58]); vm_compute; discriminate.
Defined.

(** C9. Parsing a window size succeeds on every buffer of at least 16 bytes
    and returns its first four 4-byte groups read as big-endian unsigned
    integers: character width, character height, pixel width, pixel height.
    It inverts the encoding of any four 32-bit values, so the 16 bytes that
    encode (80,24,0,0) give exactly that tuple; it fails on every buffer of
    fewer than 16 bytes. *)
Theorem parseWindowSize_spec :
  (forall b, 16 <= Go.len b ->
     exists a0 a1 a2 a3 b0 b1 b2 b3 c0 c1 c2 c3 d0 d1 d2 d3 rest,
       b = a0 :: a1 :: a2 :: a3 :: b0 :: b1 :: b2 :: b3
           :: c0 :: c1 :: c2 :: c3 :: d0 :: d1 :: d2 :: d3 :: rest /\
       Codec.parseWindowSize b
       = (Go.be_uint32 a0 a1 a2 a3, Go.be_uint32 b0 b1 b2 b3,
          Go.be_uint32 c0 c1 c2 c3, Go.be_uint32 d0 d1 d2 d3, None)) /\
  (forall w h pw ph rest,
     0 <= w < 2 ^ 32 -> 0 <= h < 2 ^ 32 -> 0 <= pw < 2 ^ 32 -> 0 <= ph < 2 ^ 32 ->
     Codec.parseWindowSize (Go.append_all (Wire.put_window w h pw ph) rest)
     = (w, h, pw, ph, None)) /\
  Codec.parseWindowSize
    [x00; x00; x00; x50; x00; x00; x00; x18;
     x00; x00; x00; x00; x00; x00; x00; x00]
  = (80, 24, 0, 0, None) /\
  (forall b, Go.len b < 16 ->
     exists e, Codec.parseWindowSize b = (0, 0, 0, 0, Some e)).
Proof.
  split; [| split; [| split]].
  - intros b H.
    destruct (sixteen_bytes b H)
      as (a0 & a1 & a2 & a3 & b0 & b1 & b2 & b3 & c0 & c1 & c2 & c3
          & d0 & d1 & d2 & d3 & rest & ->).
    exists a0, a1, a2, a3, b0, b1, b2, b3, c0, c1, c2, c3, d0, d1, d2, d3, rest.
    split; [reflexivity | apply parseWindowSize_fields].
  - intros. now apply parseWindowSize_put_window.
  - vm_compute. reflexivity.
  - intros b H. rewrite parseWindowSize_short by assumption. eexists. reflexivity.
Qed.

Lemma parseWindowSize_spec_witness :
  Codec.parseWindowSize (Go.append_all (Wire.put_window 80 24 640 480) [x01])
  = (80, 24, 640, 480, None) /\
  (exists e, Codec.parseWindowSize
               [x00; x00; x00; x50; x00; x00; x00; x18;
                x00; x00; x00; x00; x00; x00; x00] = (0, 0, 0, 0, Some e)).
Proof.
  destruct parseWindowSize_spec as (_ & Hput & _ & Hshort).
  split.
  - apply (Hput 80 24 640 480 [x01]); lia.
  - apply Hshort. vm_compute. reflexivity.
Defined.

(** ** The request loop *)

Arguments Codec.parseString : simpl never.
Arguments Codec.parseWindowSize : simpl never.
Arguments Chan.exec_loop : simpl never.
Arguments Go.itoa : simpl never.
Arguments Go.uint16_of_uint32 : simpl never.
Arguments Go.len : simpl never.
Arguments String.append : simpl never.
Arguments string_of_list_byte : simpl never.

(** Run the state-passing code of the goal one call further. *)
Ltac step :=
  unfold Env.bind, Env.ret, Env.emit, Env.answer, Env.alloc, Env.on_err; cbn.

Ltac branch :=
  match goal with
  | |- context [match ?x with _ => _ end] =>
      lazymatch x with
      | context [match _ with _ => _ end] => fail
      | _ => destruct x eqn:?
      end
  | |- context [if ?x then _ else _] =>
      lazymatch x with
      | context [if _ then _ else _] => fail
      | _ => destruct x eqn:?
      end
  end.

(** Settle what the hypotheses say about the type of the request. *)
Ltac types :=
  repeat match goal with
         | H : (_ =? _)%string = true |- _ => apply String.eqb_eq in H; subst
         end;
  cbn in *; rewrite ?andb_false_r, ?andb_true_r in *; try discriminate.

Section LoopFacts.
Import Go Env Codec Winsize Chan.

(** What one request does to the pty/tty pair: a "pty-req" that succeeds
    stores the pair [pty.Open] has just created; anything else leaves the
    fields alone. *)
Lemma processReq_pty_tty (c : Channel) (req : Request) (w : World) :
  let '(c', ok, w') := processReq c req w in
  if (Type_ req =? "pty-req")%string && ok
  then pty c' = Some (w_fresh w) /\ tty c' = Some (S (w_fresh w))
  else pty c' = pty c /\ tty c' = tty c.
Proof.
  unfold processReq, processReq_switch, msgLogError, sftp_NewServer, pty_Open,
    setWindowSize, IoctlSetWinsize.
  destruct req as [ty wr pl]. cbn [Type_ WantReply Payload].
  step. repeat (branch; step); auto; try discriminate; types; auto.
Qed.

Lemma Loop_keeps_pair (requests : list Request) :
  forall (c : Channel) (w : World),
    pty_req_succeeds c requests w = false ->
    pty (fst (Loop c requests w)) = pty c /\ tty (fst (Loop c requests w)) = tty c.
Proof.
  induction requests as [| req rest IH]; intros c w H.
  - split; reflexivity.
  - cbn [Loop pty_req_succeeds] in *. unfold bind.
    pose proof (processReq_pty_tty c req w) as S.
    destruct (processReq c req w) as [[c1 ok] w1].
    apply orb_false_iff in H. destruct H as [H1 H2].
    rewrite H1 in S. cbn [fst].
    destruct (IH c1 w1 H2) as [P T]. destruct S as [P1 T1].
    split; congruence.
Qed.

End LoopFacts.

(** C1, as the code has it. A request leaves the pty and tty fields of the
    channel as they were unless it is a "pty-req" that succeeds; so they stay
    the same over any run of the loop in which no "pty-req" succeeds. Every
    "pty-req" that succeeds, a second one as well, stores the pair that
    [pty.Open] has just created, which is a different pair from the one the
    channel held. *)
Theorem pty_pair_changes_only_on_pty_req :
  (forall c req w,
     let '(c', ok, w') := Chan.processReq c req w in
     if (Chan.Type_ req =? "pty-req")%string && ok
     then Chan.pty c' = Some (Env.w_fresh w)
          /\ Chan.tty c' = Some (S (Env.w_fresh w))
     else Chan.pty c' = Chan.pty c /\ Chan.tty c' = Chan.tty c) /\
  (forall c requests w,
     Chan.pty_req_succeeds c requests w = false ->
     Chan.pty (fst (Chan.Loop c requests w)) = Chan.pty c
     /\ Chan.tty (fst (Chan.Loop c requests w)) = Chan.tty c) /\
  (forall c req w,
     Chan.created_before w c ->
     Chan.pty_req_succeeds c [req] w = true ->
     Chan.pty (fst (Chan.Loop c [req] w)) <> Chan.pty c
     /\ Chan.tty (fst (Chan.Loop c [req] w)) <> Chan.tty c).
Proof.
  split; [| split].
  - apply processReq_pty_tty.
  - intros c requests w. apply Loop_keeps_pair.
  - intros c req w [Hp Ht] H.
    cbn [Chan.Loop Chan.pty_req_succeeds] in *. unfold Env.bind, Env.ret.
    pose proof (processReq_pty_tty c req w) as S.
    destruct (Chan.processReq c req w) as [[c1 ok] w1]. cbn [fst].
    rewrite orb_false_r in H. rewrite H in S. destruct S as [P T].
    split; intros E.
    + rewrite P in E. symmetry in E. apply Hp in E. lia.
    + rewrite T in E. symmetry in E. apply Ht in E. lia.
Qed.

(** C1 fails as stated: on a fresh channel a first "pty-req" succeeds and
    stores the pair (0, 1); a second "pty-req" succeeds as well and replaces
    it with the pair (2, 3). *)
Lemma second_pty_req_replaces_pair :
  let r1 := Chan.processReq Sample.chan Sample.pty_req Sample.world in
  let r2 := Chan.processReq (fst (fst r1)) Sample.pty_req (snd r1) in
  snd (fst r1) = true
  /\ Chan.pty (fst (fst r1)) = Some 0%nat /\ Chan.tty (fst (fst r1)) = Some 1%nat
  /\ snd (fst r2) = true
  /\ Chan.pty (fst (fst r2)) = Some 2%nat /\ Chan.tty (fst (fst r2)) = Some 3%nat
  /\ Chan.pty (fst (fst r2)) <> Chan.pty (fst (fst r1))
  /\ Chan.tty (fst (fst r2)) <> Chan.tty (fst (fst r1)).
Proof.
  vm_compute. repeat split; discriminate.
Qed.

Lemma pty_pair_changes_only_on_pty_req_witness :
  Chan.pty (fst (Chan.Loop Sample.chan
                   [Sample.shell []; Sample.window_change 80 24] Sample.world))
  = None
  /\ Chan.pty (fst (Chan.Loop Sample.chan [Sample.pty_req] Sample.world))
     <> Chan.pty Sample.chan.
Proof.
  destruct pty_pair_changes_only_on_pty_req as (_ & Hkeep & Hnew).
  split.
  - apply (Hkeep Sample.chan
             [Sample.shell []; Sample.window_change 80 24] Sample.world).
    vm_compute. reflexivity.
  - apply (Hnew Sample.chan Sample.pty_req Sample.world).
    + split; intros f H; vm_compute in H; discriminate.
    + vm_compute. reflexivity.
Defined.

Section RequestFacts.
Import Go Env Codec Winsize Chan.

(** A failing request starts no goroutine and no command. *)
Lemma failure_starts_nothing (w : World) (req : Request) (msg err : string) :
  spawned (w_trace (logged w (failure req msg err))) = spawned (w_trace w)
  /\ started (w_trace (logged w (failure req msg err))) = started (w_trace w).
Proof.
  unfold spawned, started, logged, failure, append_all. cbn [w_trace].
  rewrite !flat_map_app.
  destruct (WantReply req); cbn; now rewrite !app_nil_r.
Qed.

(** The deferred reply after a [switch] that failed with [msg] and [err]. *)
Lemma reply_after_failure (c : Channel) (req : Request) (w : World)
    (msg err : string) :
  (r <- (buf <- msgLogError (WantReply req)
                  (if WantReply req then Some "" else None) msg err ;;
         ret (c, false, buf)) ;;
   let '(c', ok, buf) := r in
   (if WantReply req then emit (EvReply ok (buf_Bytes buf)) else ret tt) ;;
   ret (c', ok)) w
  = (c, false, logged w (failure req msg err)).
Proof.
  unfold msgLogError, logged, failure, append_all. step.
  destruct (WantReply req); cbn; [now rewrite <- app_assoc | reflexivity].
Qed.

Lemma window_change_no_pty (c : Channel) (req : Request) (w : World) :
  pty c = None -> Type_ req = "window-change" ->
  processReq c req w
  = (c, false, logged w (failure req "cannot setup pty" "pty is not setup")).
Proof.
  intros Hp Ht. rewrite <- reply_after_failure.
  unfold processReq, processReq_switch. rewrite Ht, Hp. reflexivity.
Qed.

Lemma shell_with_payload (c : Channel) (req : Request) (w : World) :
  Type_ req = "shell" -> 0 < len (Payload req) ->
  processReq c req w
  = (c, false,
     logged w (failure req "shell doesn't accept payload"
                 (string_of_list_byte (Payload req)))).
Proof.
  intros Ht Hl. rewrite <- reply_after_failure.
  unfold processReq, processReq_switch. rewrite Ht.
  replace (len (Payload req) >? 0) with true by (symmetry; apply Z.gtb_lt; lia).
  reflexivity.
Qed.

Lemma shell_no_pty (c : Channel) (req : Request) (w : World) :
  Type_ req = "shell" -> Payload req = [] -> pty c = None ->
  processReq c req w
  = (c, false,
     logged w (failure req "pty is not yet setup" "pty is not yet setup")).
Proof.
  intros Ht Hl Hp. rewrite <- reply_after_failure.
  unfold processReq, processReq_switch. rewrite Ht, Hl, Hp. reflexivity.
Qed.

End RequestFacts.

(** C5. On a channel whose pty is unset a "window-change" request fails with
    "cannot setup pty: pty is not setup" and changes nothing of the channel,
    so its pty is still unset; the pty of a channel is unset as long as no
    "pty-req" has succeeded on it; so a "window-change" request that follows
    requests among which no "pty-req" succeeded fails and leaves the pty
    unset. *)
Theorem window_change_without_pty :
  (forall c req w,
     Chan.pty c = None -> Chan.Type_ req = "window-change" ->
     Chan.processReq c req w
     = (c, false,
        Chan.logged w (Chan.failure req "cannot setup pty" "pty is not setup"))) /\
  (forall s ch cancel requests w,
     Chan.pty_req_succeeds (Conn.newChannel s ch cancel) requests w = false ->
     Chan.pty (fst (Chan.Loop (Conn.newChannel s ch cancel) requests w)) = None) /\
  (forall s ch cancel requests w req,
     Chan.pty_req_succeeds (Conn.newChannel s ch cancel) requests w = false ->
     Chan.Type_ req = "window-change" ->
     let r := Chan.Loop (Conn.newChannel s ch cancel) requests w in
     snd (fst (Chan.processReq (fst r) req (snd r))) = false
     /\ Chan.pty (fst (fst (Chan.processReq (fst r) req (snd r)))) = None).
Proof.
  assert (Hunset : forall s ch cancel requests w,
     Chan.pty_req_succeeds (Conn.newChannel s ch cancel) requests w = false ->
     Chan.pty (fst (Chan.Loop (Conn.newChannel s ch cancel) requests w)) = None).
  { intros s ch cancel requests w H.
    now destruct (Loop_keeps_pair requests _ w H) as [-> _]. }
  split; [| split].
  - apply window_change_no_pty.
  - exact Hunset.
  - intros s ch cancel requests w req H Ht r.
    pose proof (Hunset s ch cancel requests w H) as Hp. fold r in Hp.
    rewrite window_change_no_pty by assumption. cbn [fst snd].
    split; [reflexivity | exact Hp].
Qed.

Lemma window_change_without_pty_witness :
  Chan.processReq Sample.chan (Sample.window_change 80 24) Sample.world
  = (Sample.chan, false,
     Chan.logged Sample.world
       (Chan.failure (Sample.window_change 80 24)
          "cannot setup pty" "pty is not setup")) /\
  Chan.pty (fst (Chan.Loop Sample.chan [Sample.shell []] Sample.world)) = None.
Proof.
  destruct window_change_without_pty as (Hfail & Hunset & _).
  split.
  - apply Hfail; reflexivity.
  - apply (Hunset Sample.conn (Some 7%nat) 1%nat [Sample.shell []] Sample.world).
    vm_compute. reflexivity.
Defined.

(** C6. A "shell" request with a non-empty payload fails, and so does a
    "shell" request on a channel without a pty; either way the channel is
    unchanged and no goroutine and no command is started. *)
Theorem shell_rejected :
  (forall c req w,
     Chan.Type_ req = "shell" -> 0 < Go.len (Chan.Payload req) ->
     Chan.processReq c req w
     = (c, false,
        Chan.logged w
          (Chan.failure req "shell doesn't accept payload"
             (string_of_list_byte (Chan.Payload req))))) /\
  (forall c req w,
     Chan.Type_ req = "shell" -> Chan.pty c = None ->
     exists msg err,
       Chan.processReq c req w = (c, false, Chan.logged w (Chan.failure req msg err))) /\
  (forall c req w,
     Chan.Type_ req = "shell" ->
     0 < Go.len (Chan.Payload req) \/ Chan.pty c = None ->
     snd (fst (Chan.processReq c req w)) = false
     /\ Chan.spawned (Env.w_trace (snd (Chan.processReq c req w)))
        = Chan.spawned (Env.w_trace w)
     /\ Chan.started (Env.w_trace (snd (Chan.processReq c req w)))
        = Chan.started (Env.w_trace w)).
Proof.
  assert (Hnopty : forall c req w,
     Chan.Type_ req = "shell" -> Chan.pty c = None ->
     exists msg err,
       Chan.processReq c req w = (c, false, Chan.logged w (Chan.failure req msg err))).
  { intros c req w Ht Hp.
    destruct (Chan.Payload req) as [| b rest] eqn:E.
    - do 2 eexists. now apply shell_no_pty.
    - do 2 eexists. apply shell_with_payload; [assumption |].
      rewrite E. unfold Go.len. cbn [List.length]. lia. }
  split; [| split].
  - apply shell_with_payload.
  - exact Hnopty.
  - intros c req w Ht [Hl | Hp].
    + rewrite shell_with_payload by assumption. cbn [fst snd].
      split; [reflexivity | apply failure_starts_nothing].
    + destruct (Hnopty c req w Ht Hp) as (msg & err & ->). cbn [fst snd].
      split; [reflexivity | apply failure_starts_nothing].
Qed.

Lemma shell_rejected_witness :
  Chan.processReq Sample.chan (Sample.shell [x6c; x73]) Sample.world
  = (Sample.chan, false,
     Chan.logged Sample.world
       (Chan.failure (Sample.shell [x6c; x73]) "shell doesn't accept payload" "ls")) /\
  snd (fst (Chan.processReq Sample.chan (Sample.shell []) Sample.world)) = false.
Proof.
  destruct shell_rejected as (Hpayload & _ & Hnone).
  split.
  - apply (Hpayload Sample.chan (Sample.shell [x6c; x73]) Sample.world);
      vm_compute; reflexivity.
  - apply (Hnone Sample.chan (Sample.shell []) Sample.world);
      [reflexivity | right; reflexivity].
Defined.

(** ** The "exec" request *)

Section ExecFacts.
Import Go Env Codec Chan Wire.

Lemma exec_loop_done (fuel : nat) (commands : list string) :
  exec_loop fuel commands [] = Some (commands, None).
Proof. destruct fuel; reflexivity. Qed.

Lemma exec_loop_more (fuel : nat) (commands : list string) (payload : list byte) :
  payload <> [] ->
  exec_loop (S fuel) commands payload
  = match parseString payload with
    | (_, _, Some e) => Some (commands, Some e)
    | (cmd, parsed, None) =>
        exec_loop fuel (append commands cmd) (slice_from payload parsed)
    end.
Proof.
  intros H. destruct payload as [| b rest]; [congruence |]. reflexivity.
Qed.

(** The loop only ever adds to the commands it was started with. *)
Lemma exec_loop_extends (fuel : nat) :
  forall commands payload result err,
    exec_loop fuel commands payload = Some (result, err) ->
    exists tokens, result = append_all commands tokens.
Proof.
  induction fuel as [| fuel IH]; intros commands payload result err H.
  - destruct payload; [| discriminate].
    rewrite exec_loop_done in H. injection H as <- <-.
    exists []. unfold append_all. now rewrite app_nil_r.
  - destruct payload as [| b rest].
    + rewrite exec_loop_done in H. injection H as <- <-.
      exists []. unfold append_all. now rewrite app_nil_r.
    + rewrite exec_loop_more in H by discriminate.
      destruct (parseString (b :: rest)) as [[cmd parsed] [e |]].
      * injection H as <- <-. exists []. unfold append_all. now rewrite app_nil_r.
      * apply IH in H. destruct H as [tokens ->].
        exists (cmd :: tokens). unfold append, append_all.
        now rewrite <- app_assoc.
Qed.

(** The loop ends: a round consumes at least the four bytes of a prefix,
    so as many rounds as the payload has bytes are never used up. *)
Lemma exec_loop_total (fuel : nat) :
  forall commands payload,
    (List.length payload <= fuel)%nat ->
    exec_loop fuel commands payload <> None.
Proof.
  induction fuel as [| fuel IH]; intros commands payload H.
  - destruct payload; [| cbn in H; lia]. discriminate.
  - destruct payload as [| b rest]; [discriminate |].
    rewrite exec_loop_more by discriminate.
    destruct (parseString (b :: rest)) as [[cmd parsed] [e |]] eqn:E;
      [discriminate |].
    apply IH. apply parseString_consumed in E.
    unfold slice_from, len in *. rewrite length_skipn. lia.
Qed.

Lemma exec_tokens_none_iff_empty (payload : list byte) :
  exec_tokens payload = Some [] <-> payload = [].
Proof.
  split.
  - unfold exec_tokens. destruct payload as [| b rest]; [reflexivity |].
    cbn [List.length]. rewrite exec_loop_more by discriminate.
    destruct (parseString (b :: rest)) as [[cmd parsed] [e |]]; [discriminate |].
    destruct (exec_loop _ _ _) as [[result [e |]] |] eqn:E; try discriminate.
    apply exec_loop_extends in E. destruct E as [tokens ->].
    discriminate.
  - intros ->. reflexivity.
Qed.

(** Reading back what the peer encoded: the loop returns the tokens, in
    order, after the commands it was started with. *)
Lemma exec_loop_put_strings (tokens : list string) :
  forall fuel commands,
    Forall fits tokens -> (List.length tokens <= fuel)%nat ->
    exec_loop fuel commands (put_strings tokens)
    = Some (append_all commands tokens, None).
Proof.
  induction tokens as [| t rest IH]; intros fuel commands Hf Hl.
  - cbn [put_strings flat_map]. rewrite exec_loop_done.
    unfold append_all. now rewrite app_nil_r.
  - inversion Hf as [| ? ? Ht Hrest]; subst.
    destruct fuel as [| fuel]; [cbn in Hl; lia |].
    change (put_strings (t :: rest))
      with (append_all (put_string t) (put_strings rest)).
    destruct (parseString_put_string t (put_strings rest) Ht) as [P Q].
    rewrite exec_loop_more.
    + rewrite P, Q. cbn [List.length] in Hl.
      rewrite IH by (assumption || lia).
      unfold append, append_all. rewrite <- app_assoc. reflexivity.
    + unfold put_string, put_uint32, BigEndian_AppendUint32, append_all.
      discriminate.
Qed.

Lemma length_put_strings (tokens : list string) :
  (List.length tokens <= List.length (put_strings tokens))%nat.
Proof.
  induction tokens as [| t rest IH]; [reflexivity |].
  change (put_strings (t :: rest)) with (put_string t ++ put_strings rest)%list.
  rewrite length_app.
  unfold put_string, put_uint32, BigEndian_AppendUint32, append_all.
  cbn [app List.length]. lia.
Qed.

Lemma exec_tokens_put_strings (tokens : list string) :
  Forall fits tokens -> exec_tokens (put_strings tokens) = Some tokens.
Proof.
  intros Hf. unfold exec_tokens.
  rewrite exec_loop_put_strings by (assumption || apply length_put_strings).
  reflexivity.
Qed.

Lemma exec_no_tokens (c : Channel) (req : Request) (w : World) :
  Type_ req = "exec" -> exec_tokens (Payload req) = Some [] ->
  processReq c req w
  = (c, false,
     logged w (failure req "no commands in exec"
                 (string_of_list_byte (Payload req)))).
Proof.
  intros Ht Hz. apply exec_tokens_none_iff_empty in Hz.
  rewrite <- reply_after_failure.
  unfold processReq, processReq_switch. rewrite Ht, Hz. reflexivity.
Qed.

(** An "exec" request whose payload holds tokens hands them, after "-c",
    to one new goroutine. *)
Lemma exec_some_tokens (c : Channel) (req : Request) (w : World)
    (t : string) (rest : list string) :
  Type_ req = "exec" -> exec_tokens (Payload req) = Some (t :: rest) ->
  processReq c req w
  = (c, true,
     logged w
       (EvWgAdd 1 :: EvGo (TaskExec ("-c" :: t :: rest))
        :: (if WantReply req then [EvReply true ""] else []))).
Proof.
  intros Ht Hz. unfold exec_tokens in Hz.
  destruct (exec_loop _ _ _) as [[commands [e |]] |] eqn:E; try discriminate.
  destruct (exec_loop_extends _ _ _ _ _ E) as [tokens ->].
  cbn in Hz. injection Hz as ->.
  unfold processReq, processReq_switch. rewrite Ht. step. rewrite E.
  unfold logged, append_all. cbn [app].
  replace (len ("-c" :: t :: rest) <=? 1) with false
    by (symmetry; apply Z.leb_gt; unfold len; cbn [List.length]; lia).
  destruct (WantReply req); step; now rewrite <- !app_assoc.
Qed.

End ExecFacts.

(** ** The process/IO bridge *)

Arguments Bridge.finishCmd : simpl never.
Arguments Bridge.sent : simpl never.
Arguments Bridge.closed : simpl never.
Arguments Bridge.calls : simpl never.
Arguments Chan.started : simpl never.
Arguments Chan.spawned : simpl never.

Section BridgeFacts.
Import Go Env Chan Bridge.

(** The completion sequence, whatever the environment answers. *)
Lemma finishCmd_calls (c : Channel) (cmd : Cmd) (w : World) :
  calls (w_trace (snd (finishCmd c cmd w)))
  = append_all (calls (w_trace w))
      [EvCmdWait; EvCloseWrite (channel c);
       EvSendRequest (channel c) "exit-status" false
         (BigEndian_AppendUint32 [] (exitcode_of (fst (finishCmd c cmd w))));
       EvChannelClose (channel c)].
Proof.
  unfold finishCmd, cmd_Wait, channel_CloseWrite, channel_SendRequest,
    channel_Close, append_all.
  step. repeat (branch; step);
    unfold calls; rewrite !filter_app; cbn [filter app];
    rewrite ?app_nil_r, <- ?app_assoc; reflexivity.
Qed.

(** The process state [finishCmd] reads is the one the wait reported, when
    the command had been started. *)
Lemma finishCmd_state (c : Channel) (cmd : Cmd) (w : World) :
  CmdProcessState (fst (finishCmd c cmd w))
  = if Process cmd then a_state (hd silent (w_script w))
    else CmdProcessState cmd.
Proof.
  unfold finishCmd, cmd_Wait, channel_CloseWrite, channel_SendRequest,
    channel_Close.
  step. repeat (branch; step); reflexivity.
Qed.

Lemma sent_app (a b : list Event) : sent (a ++ b) = (sent a ++ sent b)%list.
Proof. apply flat_map_app. Qed.

Lemma closed_app (a b : list Event) : closed (a ++ b) = (closed a ++ closed b)%list.
Proof. apply flat_map_app. Qed.

Lemma started_app (a b : list Event) :
  started (a ++ b) = (started a ++ started b)%list.
Proof. apply flat_map_app. Qed.

Lemma sent_calls (tr : list Event) : sent (calls tr) = sent tr.
Proof.
  unfold sent, calls.
  induction tr as [| e tr IH]; [reflexivity |].
  destruct e; cbn [filter flat_map app]; now rewrite ?IH.
Qed.

Lemma closed_calls (tr : list Event) : closed (calls tr) = closed tr.
Proof.
  unfold closed, calls.
  induction tr as [| e tr IH]; [reflexivity |].
  destruct e; cbn [filter flat_map app]; now rewrite ?IH.
Qed.

Lemma finishCmd_sent (c : Channel) (cmd : Cmd) (w : World) :
  sent (w_trace (snd (finishCmd c cmd w)))
  = (sent (w_trace w)
     ++ [("exit-status", false,
          BigEndian_AppendUint32 [] (exitcode_of (fst (finishCmd c cmd w))))])%list.
Proof.
  rewrite <- sent_calls, finishCmd_calls. unfold append_all.
  rewrite sent_app, sent_calls. reflexivity.
Qed.

Lemma finishCmd_closed (c : Channel) (cmd : Cmd) (w : World) :
  closed (w_trace (snd (finishCmd c cmd w)))
  = (closed (w_trace w) ++ [channel c])%list.
Proof.
  rewrite <- closed_calls, finishCmd_calls. unfold append_all.
  rewrite closed_app, closed_calls. reflexivity.
Qed.

Lemma started_calls (tr : list Event) : started (calls tr) = started tr.
Proof.
  unfold started, calls.
  induction tr as [| e tr IH]; [reflexivity |].
  destruct e; cbn [filter flat_map app]; now rewrite ?IH.
Qed.

(** The completion starts no command. *)
Lemma finishCmd_started (c : Channel) (cmd : Cmd) (w : World) :
  started (w_trace (snd (finishCmd c cmd w))) = started (w_trace w).
Proof.
  rewrite <- started_calls, finishCmd_calls. unfold append_all.
  rewrite started_app, started_calls. unfold started at 2. cbn.
  now rewrite app_nil_r.
Qed.

(** Bring in what is known of a completion the goal has run. *)
Ltac completion :=
  match goal with
  | H : finishCmd ?c ?cmd ?w = (?r, ?w') |- _ =>
      let S1 := fresh "Hsent" in
      let S2 := fresh "Hclosed" in
      let S3 := fresh "Hstarted" in
      pose proof (finishCmd_sent c cmd w) as S1;
      pose proof (finishCmd_closed c cmd w) as S2;
      pose proof (finishCmd_started c cmd w) as S3;
      rewrite H in S1, S2, S3; cbn [fst snd w_trace] in S1, S2, S3
  end.

(** Push [sent], [closed] and [started] through the events of a trace. *)
Ltac observe :=
  unfold sent, closed, started in *;
  repeat rewrite flat_map_app in *;
  cbn [flat_map app] in *;
  repeat rewrite app_nil_r in *.


(** The command a goroutine for an "exec" request starts: "bash", with the
    gathered commands as its arguments, one argument each. *)
Lemma run_process_exec_started (c : Channel) (commands : list string) (w : World) :
  exists cmd,
    started (w_trace (snd (run_process c (TaskExec commands) w)))
    = (started (w_trace w) ++ [cmd])%list
    /\ Path cmd = "bash" /\ Args cmd = "bash" :: commands.
Proof.
  unfold run_process, ttyCmd, noTtyCmd, cmd_Start, file_Close;
    step; repeat (branch; step);
    try completion; observe; eexists;
    (split; [first [exact Hstarted | reflexivity] | split; reflexivity]).
Qed.

End BridgeFacts.

(** C7. The only payload from which the "exec" loop reads zero tokens is the
    empty one, and the loop never fails to end. An "exec" request with such a
    payload fails with "no commands in exec", the channel unchanged, and
    starts no goroutine and no command. *)
Theorem exec_without_tokens :
  (forall payload, Chan.exec_tokens payload = Some [] <-> payload = []) /\
  (forall payload commands,
     Chan.exec_loop (List.length payload) commands payload <> None) /\
  (forall c req w,
     Chan.Type_ req = "exec" -> Chan.exec_tokens (Chan.Payload req) = Some [] ->
     Chan.processReq c req w
     = (c, false,
        Chan.logged w
          (Chan.failure req "no commands in exec"
             (string_of_list_byte (Chan.Payload req))))
     /\ Chan.spawned (Env.w_trace (snd (Chan.processReq c req w)))
        = Chan.spawned (Env.w_trace w)
     /\ Chan.started (Env.w_trace (snd (Chan.processReq c req w)))
        = Chan.started (Env.w_trace w)).
Proof.
  split; [| split].
  - apply exec_tokens_none_iff_empty.
  - intros payload commands. apply exec_loop_total. lia.
  - intros c req w Ht Hz. rewrite exec_no_tokens by assumption.
    split; [reflexivity | apply failure_starts_nothing].
Qed.

Lemma exec_without_tokens_witness :
  Chan.processReq Sample.chan (Sample.exec []) Sample.world
  = (Sample.chan, false,
     Chan.logged Sample.world
       (Chan.failure (Sample.exec []) "no commands in exec" "")).
Proof.
  destruct exec_without_tokens as (_ & _ & Hfail).
  apply (Hfail Sample.chan (Sample.exec []) Sample.world); reflexivity.
Defined.

(** C2 fails as stated: an "exec" request with the two tokens "ls" and "-l"
    starts bash with the three arguments "-c", "ls", "-l", which is not
    "-c" followed by one joined line. *)
Lemma exec_passes_tokens_apart :
  Chan.spawned
    (Env.w_trace
       (snd (Chan.processReq Sample.chan (Sample.exec ["ls"; "-l"]) Sample.world)))
  = [Env.TaskExec ["-c"; "ls"; "-l"]]
  /\ map Env.Args
       (Chan.started
          (Env.w_trace
             (snd (Bridge.run_process Sample.chan
                     (Env.TaskExec ["-c"; "ls"; "-l"]) Sample.world))))
     = [["bash"; "-c"; "ls"; "-l"]]
  /\ (forall line : string, ["-c"; "ls"; "-l"] <> ["-c"; line]).
Proof.
  split; [| split].
  - vm_compute. reflexivity.
  - vm_compute. reflexivity.
  - intros line. discriminate.
Qed.

(** C2, as the code has it. An "exec" request whose payload encodes one or
    more tokens succeeds and hands "-c" followed by the tokens, in order and
    one element each, to one new goroutine; that goroutine starts "bash" with
    exactly these as its arguments, so with ["-c", token] when there is a
    single token. *)
Theorem exec_arguments :
  (forall c req w t rest,
     Chan.Type_ req = "exec" -> Forall Wire.fits (t :: rest) ->
     Chan.Payload req = Wire.put_strings (t :: rest) ->
     Chan.processReq c req w
     = (c, true,
        Chan.logged w
          (Env.EvWgAdd 1 :: Env.EvGo (Env.TaskExec ("-c" :: t :: rest))
           :: (if Chan.WantReply req then [Env.EvReply true ""] else [])))) /\
  (forall c commands w,
     exists cmd,
       Chan.started (Env.w_trace (snd (Bridge.run_process c (Env.TaskExec commands) w)))
       = (Chan.started (Env.w_trace w) ++ [cmd])%list
       /\ Env.Path cmd = "bash" /\ Env.Args cmd = "bash" :: commands).
Proof.
  split.
  - intros c req w t rest Ht Hf Hp. apply exec_some_tokens; [assumption |].
    rewrite Hp. now apply exec_tokens_put_strings.
  - apply run_process_exec_started.
Qed.

Lemma exec_arguments_witness :
  Chan.processReq Sample.chan (Sample.exec ["uname -a"]) Sample.world
  = (Sample.chan, true,
     Chan.logged Sample.world
       [Env.EvWgAdd 1; Env.EvGo (Env.TaskExec ["-c"; "uname -a"]);
        Env.EvReply true ""]).
Proof.
  destruct exec_arguments as [Hreq _].
  apply (Hreq Sample.chan (Sample.exec ["uname -a"]) Sample.world "uname -a" []).
  - reflexivity.
  - repeat constructor.
  - reflexivity.
Defined.

Section ExitCodeFacts.
Import Go Env Bridge Wire.



End ExitCodeFacts.




(** ** Teardown of the connection *)

Section CloseFacts.
Import Go Env Chan Bridge Conn.

Lemma answers_app (n m : nat) :
  forall script,
    answers (n + m) script
    = (answers n script ++ answers m (skipn n script))%list.
Proof.
  induction n as [| n IH]; intros script; [reflexivity |].
  destruct script as [| a rest]; cbn [Nat.add answers skipn app].
  - rewrite IH. now destruct n.
  - now rewrite IH.
Qed.

Lemma close_channel_run (errs : list error) (ch : Channel) (w : World) :
  close_channel errs ch w
  = (append_all errs (map a_err (answers (closes_in ch) (w_script w))),
     {| w_script := skipn (closes_in ch) (w_script w);
        w_fresh := w_fresh w;
        w_trace := append_all (w_trace w) (release ch) |}).
Proof.
  unfold close_channel, release, closes_in, present, file_Close,
    channel_Close, append, append_all.
  destruct (pty ch), (tty ch), (channel ch); step;
    repeat (branch; step);
    rewrite <- ?app_assoc, ?app_nil_r; reflexivity.
Qed.

Lemma close_channels_run (l : list Channel) :
  forall (errs : list error) (w : World),
    close_channels errs l w
    = (append_all errs
         (map a_err (answers (list_sum (map closes_in l)) (w_script w))),
       {| w_script := skipn (list_sum (map closes_in l)) (w_script w);
          w_fresh := w_fresh w;
          w_trace := append_all (w_trace w) (flat_map release l) |}).
Proof.
  induction l as [| ch rest IH]; intros errs w.
  - unfold append_all. cbn. rewrite !app_nil_r. now destruct w.
  - change (list_sum (map closes_in (ch :: rest)))
      with (closes_in ch + list_sum (map closes_in rest))%nat.
    cbn [close_channels flat_map]. unfold bind.
    rewrite close_channel_run, IH. cbn [w_script w_fresh w_trace].
    unfold append_all.
    rewrite answers_app, map_app, skipn_skipn, <- !app_assoc.
    now rewrite (Nat.add_comm (list_sum (map closes_in rest))).
Qed.

(** [Close], whatever the closes answer. *)
Lemma Close_run (s : ServerConn) (w : World) :
  Close s w
  = (errors_Join (map a_err (answers (closes s) (w_script w))),
     {| w_script := skipn (closes s) (w_script w);
        w_fresh := w_fresh w;
        w_trace := append_all (w_trace w) (teardown s) |}).
Proof.
  unfold Close, Wait, transport_Close, closes, teardown.
  unfold bind at 1. unfold emit at 1. unfold bind at 1.
  rewrite close_channels_run. cbn [w_script w_fresh w_trace].
  set (n := list_sum (map closes_in (chans s))).
  rewrite answers_app, map_app, (Nat.add_comm n 1), <- skipn_skipn.
  unfold append, append_all. step.
  destruct (skipn n (w_script w)) as [| a rest] eqn:E; cbn;
    rewrite <- ?app_assoc; reflexivity.
Qed.

Lemma errors_Join_nil_iff (errs : list error) :
  errors_Join errs = None <-> Forall (fun e => e = None) errs.
Proof.
  unfold errors_Join. split.
  - induction errs as [| [e |] rest IH]; cbn; intros H.
    + constructor.
    + discriminate.
    + constructor; [reflexivity | apply IH, H].
  - induction 1 as [| e rest He _ IH]; [reflexivity |].
    subst e. exact IH.
Qed.

Lemma errors_Join_keeps (errs : list error) (e : string) :
  In (Some e) errs -> exists l, errors_Join errs = Some l /\ In e l.
Proof.
  intros H. unfold errors_Join.
  match goal with |- context [flat_map ?f errs] => set (kept := flat_map f errs) end.
  assert (I : In e kept).
  { apply in_flat_map. exists (Some e). split; [assumption | now left]. }
  destruct kept as [| x l]; [contradiction |].
  eexists. split; [reflexivity | assumption].
Qed.

End CloseFacts.

(** C4. [Close] makes these calls, in this order and whatever each of them
    answers: the wait for all spawned work; for every recorded channel in
    turn the cancel of its scope and the close of its pty, of its tty and of
    its stream, each where the channel has one; the cancel of the
    connection's scope; the close of the transport. It returns the join of
    what all these closes answered: nil exactly when none of them failed,
    and otherwise an aggregate that holds every failure. *)
Theorem Close_collects_failures :
  (forall s w,
     Conn.Close s w
     = (Go.errors_Join (map Env.a_err (Conn.answers (Conn.closes s) (Env.w_script w))),
        {| Env.w_script := skipn (Conn.closes s) (Env.w_script w);
           Env.w_fresh := Env.w_fresh w;
           Env.w_trace := Go.append_all (Env.w_trace w) (Conn.teardown s) |})) /\
  (forall errs,
     Go.errors_Join errs = None <-> Forall (fun e => e = None) errs) /\
  (forall errs e,
     In (Some e) errs -> exists l, Go.errors_Join errs = Some l /\ In e l).
Proof.
  split; [| split].
  - apply Close_run.
  - apply errors_Join_nil_iff.
  - apply errors_Join_keeps.
Qed.

Lemma Close_collects_failures_witness :
  Conn.Close Sample.closing Sample.tty_gone
  = (Some ["file already closed"],
     {| Env.w_script := []; Env.w_fresh := 5%nat;
        Env.w_trace :=
          [Env.EvWgWait; Env.EvCancel 1%nat; Env.EvFileClose 3%nat;
           Env.EvFileClose 4%nat; Env.EvChannelClose (Some 7%nat);
           Env.EvCancel 0%nat; Env.EvTransportClose 0%nat] |}).
Proof.
  destruct Close_collects_failures as [Hrun _].
  rewrite (Hrun Sample.closing Sample.tty_gone). reflexivity.
Defined.

(** ** Window sizes *)

Arguments Winsize.setWindowSize : simpl never.

Section ResizeFacts.
Import Go Env Codec Winsize Chan Wire.

Lemma setWindowSize_skips (fd row col : Z) (w : World) :
  row = 0 \/ col = 0 -> setWindowSize fd row col w = (None, w).
Proof.
  intros [-> | ->]; unfold setWindowSize; cbn [Z.eqb orb];
    rewrite ?orb_true_r; reflexivity.
Qed.

Lemma setWindowSize_applies (fd row col : Z) (w : World) :
  row <> 0 -> col <> 0 ->
  setWindowSize fd row col w
  = (a_err (hd silent (w_script w)),
     {| w_script := tl (w_script w); w_fresh := w_fresh w;
        w_trace := append_all (w_trace w) [EvIoctlSetWinsize fd row col] |}).
Proof.
  intros Hr Hc. unfold setWindowSize, IoctlSetWinsize.
  apply Z.eqb_neq in Hr, Hc. rewrite Hr, Hc. cbn [orb]. step.
  destruct (w_script w); reflexivity.
Qed.

Lemma window_change_skipped (c : Channel) (f : File) (req : Request) (w : World)
    (cols rows pw ph : Z) (rest : list byte) :
  pty c = Some f -> Type_ req = "window-change" ->
  Payload req = append_all (put_window cols rows pw ph) rest ->
  0 <= cols < 2 ^ 32 -> 0 <= rows < 2 ^ 32 ->
  0 <= pw < 2 ^ 32 -> 0 <= ph < 2 ^ 32 ->
  rows mod 2 ^ 16 = 0 \/ cols mod 2 ^ 16 = 0 ->
  processReq c req w
  = (c, true, logged w (if WantReply req then [EvReply true ""] else [])).
Proof.
  intros Hp Ht Hpl Hc Hr Hpw Hph Hz.
  unfold processReq, processReq_switch. rewrite Ht, Hp, Hpl.
  rewrite parseWindowSize_put_window by assumption.
  cbn [String.eqb Ascii.eqb Bool.eqb].
  unfold bind. rewrite setWindowSize_skips by exact Hz.
  unfold logged, append_all.
  destruct (WantReply req); step; rewrite ?app_nil_r; now destruct w.
Qed.

Lemma window_change_applied (c : Channel) (f : File) (req : Request) (w : World)
    (cols rows pw ph : Z) (rest : list byte) :
  pty c = Some f -> Type_ req = "window-change" ->
  Payload req = append_all (put_window cols rows pw ph) rest ->
  0 <= cols < 2 ^ 32 -> 0 <= rows < 2 ^ 32 ->
  0 <= pw < 2 ^ 32 -> 0 <= ph < 2 ^ 32 ->
  rows mod 2 ^ 16 <> 0 -> cols mod 2 ^ 16 <> 0 ->
  processReq c req w
  = (c,
     match a_err (hd silent (w_script w)) with Some _ => false | None => true end,
     {| w_script := tl (w_script w); w_fresh := w_fresh w;
        w_trace :=
          append_all (w_trace w)
            (EvIoctlSetWinsize (Fd f) (rows mod 2 ^ 16) (cols mod 2 ^ 16)
             :: match a_err (hd silent (w_script w)) with
                | Some e => failure req "failed to set window size" e
                | None => if WantReply req then [EvReply true ""] else []
                end) |}).
Proof.
  intros Hp Ht Hpl Hc Hr Hpw Hph Hzr Hzc.
  unfold processReq, processReq_switch. rewrite Ht, Hp, Hpl.
  rewrite parseWindowSize_put_window by assumption.
  cbn [String.eqb Ascii.eqb Bool.eqb].
  unfold bind. rewrite setWindowSize_applies by assumption.
  unfold msgLogError, failure, append_all. cbn [Fd_int].
  destruct (a_err (hd silent (w_script w))) as [e |];
    destruct (WantReply req); step; rewrite <- ?app_assoc; reflexivity.
Qed.

Lemma pty_req_skipped (c : Channel) (req : Request) (w : World)
    (term : string) (cols rows pw ph : Z) (rest : list byte) :
  Type_ req = "pty-req" ->
  Payload req
  = append_all (put_string term) (append_all (put_window cols rows pw ph) rest) ->
  fits term ->
  0 <= cols < 2 ^ 32 -> 0 <= rows < 2 ^ 32 ->
  0 <= pw < 2 ^ 32 -> 0 <= ph < 2 ^ 32 ->
  a_err (hd silent (w_script w)) = None ->
  rows mod 2 ^ 16 = 0 \/ cols mod 2 ^ 16 = 0 ->
  processReq c req w
  = (set_pty_tty c (Some (w_fresh w)) (Some (S (w_fresh w))), true,
     {| w_script := tl (w_script w); w_fresh := S (S (w_fresh w));
        w_trace :=
          append_all (w_trace w)
            (EvPtyOpen :: if WantReply req then [EvReply true ""] else []) |}).
Proof.
  intros Ht Hpl Hf Hc Hr Hpw Hph Hopen Hz.
  destruct (parseString_put_string term
              (append_all (put_window cols rows pw ph) rest) Hf) as [P Q].
  unfold processReq, processReq_switch. rewrite Ht, Hpl, P, Q.
  rewrite parseWindowSize_put_window by assumption.
  cbn [String.eqb Ascii.eqb Bool.eqb].
  unfold pty_Open, append_all. step.
  destruct (w_script w) as [| a script]; cbn [hd] in Hopen;
    [| rewrite Hopen]; step;
    rewrite setWindowSize_skips by exact Hz;
    destruct (WantReply req); step; rewrite <- ?app_assoc; reflexivity.
Qed.

Lemma pty_req_applied (c : Channel) (req : Request) (w : World)
    (term : string) (cols rows pw ph : Z) (rest : list byte) :
  Type_ req = "pty-req" ->
  Payload req
  = append_all (put_string term) (append_all (put_window cols rows pw ph) rest) ->
  fits term ->
  0 <= cols < 2 ^ 32 -> 0 <= rows < 2 ^ 32 ->
  0 <= pw < 2 ^ 32 -> 0 <= ph < 2 ^ 32 ->
  a_err (hd silent (w_script w)) = None ->
  rows mod 2 ^ 16 <> 0 -> cols mod 2 ^ 16 <> 0 ->
  processReq c req w
  = (set_pty_tty c (Some (w_fresh w)) (Some (S (w_fresh w))), true,
     {| w_script := tl (tl (w_script w)); w_fresh := S (S (w_fresh w));
        w_trace :=
          append_all (w_trace w)
            (EvPtyOpen
             :: EvIoctlSetWinsize (Fd (w_fresh w)) (rows mod 2 ^ 16) (cols mod 2 ^ 16)
             :: append_all
                  (match a_err (hd silent (tl (w_script w))) with
                   | Some e => [EvLog Info "failed to set window size" [("err", e)]]
                   | None => []
                   end)
                  (if WantReply req then [EvReply true ""] else [])) |}).
Proof.
  intros Ht Hpl Hf Hc Hr Hpw Hph Hopen Hzr Hzc.
  destruct (parseString_put_string term
              (append_all (put_window cols rows pw ph) rest) Hf) as [P Q].
  unfold processReq, processReq_switch. rewrite Ht, Hpl, P, Q.
  rewrite parseWindowSize_put_window by assumption.
  cbn [String.eqb Ascii.eqb Bool.eqb].
  unfold pty_Open, append_all. step.
  destruct (w_script w) as [| a script]; cbn [hd] in Hopen;
    [| rewrite Hopen]; step;
    rewrite setWindowSize_applies by assumption; step;
    [| destruct script as [| b script]; cbn [hd tl a_err silent];
       [| destruct (a_err b)]];
    destruct (WantReply req); step; rewrite <- ?app_assoc; reflexivity.
Qed.

End ResizeFacts.

(** C10. The rows and columns a "pty-req" or a "window-change" request asks
    for are 32-bit values, and the resize is called with each reduced modulo
    2^16. When the reduced rows or columns are 0, as they are for every
    multiple of 65536, the request succeeds without any resize call;
    otherwise the resize is called with the reduced values. *)
Theorem window_size_reduced_mod_65536 :
  (forall x, Go.uint16_of_uint32 x = x mod 2 ^ 16) /\
  (forall k, Go.uint16_of_uint32 (k * 65536) = 0) /\
  (forall fd row col w,
     row = 0 \/ col = 0 -> Winsize.setWindowSize fd row col w = (None, w)) /\
  (forall c f req w cols rows pw ph rest,
     Chan.pty c = Some f -> Chan.Type_ req = "window-change" ->
     Chan.Payload req = Go.append_all (Wire.put_window cols rows pw ph) rest ->
     0 <= cols < 2 ^ 32 -> 0 <= rows < 2 ^ 32 ->
     0 <= pw < 2 ^ 32 -> 0 <= ph < 2 ^ 32 ->
     rows mod 2 ^ 16 = 0 \/ cols mod 2 ^ 16 = 0 ->
     Chan.processReq c req w
     = (c, true,
        Chan.logged w (if Chan.WantReply req then [Env.EvReply true ""] else []))) /\
  (forall c f req w cols rows pw ph rest,
     Chan.pty c = Some f -> Chan.Type_ req = "window-change" ->
     Chan.Payload req = Go.append_all (Wire.put_window cols rows pw ph) rest ->
     0 <= cols < 2 ^ 32 -> 0 <= rows < 2 ^ 32 ->
     0 <= pw < 2 ^ 32 -> 0 <= ph < 2 ^ 32 ->
     rows mod 2 ^ 16 <> 0 -> cols mod 2 ^ 16 <> 0 ->
     Chan.processReq c req w
     = (c,
        match Env.a_err (hd Env.silent (Env.w_script w)) with
        | Some _ => false
        | None => true
        end,
        {| Env.w_script := tl (Env.w_script w); Env.w_fresh := Env.w_fresh w;
           Env.w_trace :=
             Go.append_all (Env.w_trace w)
               (Env.EvIoctlSetWinsize (Env.Fd f) (rows mod 2 ^ 16) (cols mod 2 ^ 16)
                :: match Env.a_err (hd Env.silent (Env.w_script w)) with
                   | Some e => Chan.failure req "failed to set window size" e
                   | None => if Chan.WantReply req then [Env.EvReply true ""] else []
                   end) |})) /\
  (forall c req w term cols rows pw ph rest,
     Chan.Type_ req = "pty-req" ->
     Chan.Payload req
     = Go.append_all (Wire.put_string term)
         (Go.append_all (Wire.put_window cols rows pw ph) rest) ->
     Wire.fits term ->
     0 <= cols < 2 ^ 32 -> 0 <= rows < 2 ^ 32 ->
     0 <= pw < 2 ^ 32 -> 0 <= ph < 2 ^ 32 ->
     Env.a_err (hd Env.silent (Env.w_script w)) = None ->
     rows mod 2 ^ 16 = 0 \/ cols mod 2 ^ 16 = 0 ->
     Chan.processReq c req w
     = (Chan.set_pty_tty c (Some (Env.w_fresh w)) (Some (S (Env.w_fresh w))), true,
        {| Env.w_script := tl (Env.w_script w);
           Env.w_fresh := S (S (Env.w_fresh w));
           Env.w_trace :=
             Go.append_all (Env.w_trace w)
               (Env.EvPtyOpen
                :: if Chan.WantReply req then [Env.EvReply true ""] else []) |})) /\
  (forall c req w term cols rows pw ph rest,
     Chan.Type_ req = "pty-req" ->
     Chan.Payload req
     = Go.append_all (Wire.put_string term)
         (Go.append_all (Wire.put_window cols rows pw ph) rest) ->
     Wire.fits term ->
     0 <= cols < 2 ^ 32 -> 0 <= rows < 2 ^ 32 ->
     0 <= pw < 2 ^ 32 -> 0 <= ph < 2 ^ 32 ->
     Env.a_err (hd Env.silent (Env.w_script w)) = None ->
     rows mod 2 ^ 16 <> 0 -> cols mod 2 ^ 16 <> 0 ->
     Chan.processReq c req w
     = (Chan.set_pty_tty c (Some (Env.w_fresh w)) (Some (S (Env.w_fresh w))), true,
        {| Env.w_script := tl (tl (Env.w_script w));
           Env.w_fresh := S (S (Env.w_fresh w));
           Env.w_trace :=
             Go.append_all (Env.w_trace w)
               (Env.EvPtyOpen
                :: Env.EvIoctlSetWinsize (Env.Fd (Env.w_fresh w))
                     (rows mod 2 ^ 16) (cols mod 2 ^ 16)
                :: Go.append_all
                     (match Env.a_err (hd Env.silent (tl (Env.w_script w))) with
                      | Some e =>
                          [Env.EvLog Env.Info "failed to set window size" [("err", e)]]
                      | None => []
                      end)
                     (if Chan.WantReply req then [Env.EvReply true ""] else [])) |})).
Proof.
  repeat apply conj.
  - reflexivity.
  - intros k. unfold Go.uint16_of_uint32. change (2 ^ 16) with 65536.
    apply Z.mod_mul. lia.
  - apply setWindowSize_skips.
  - apply window_change_skipped.
  - apply window_change_applied.
  - apply pty_req_skipped.
  - apply pty_req_applied.
Qed.

Lemma window_size_reduced_mod_65536_witness :
  Chan.processReq (Chan.set_pty_tty Sample.chan (Some 3%nat) (Some 4%nat))
    (Sample.window_change 65536 24) Sample.world
  = (Chan.set_pty_tty Sample.chan (Some 3%nat) (Some 4%nat), true,
     Chan.logged Sample.world [Env.EvReply true ""])
  /\ Chan.processReq Sample.chan Sample.pty_req Sample.world
     = (Chan.set_pty_tty Sample.chan (Some 0%nat) (Some 1%nat), true,
        {| Env.w_script := []; Env.w_fresh := 2%nat;
           Env.w_trace :=
             [Env.EvPtyOpen; Env.EvIoctlSetWinsize 0 24 80; Env.EvReply true ""] |}).
Proof.
  destruct window_size_reduced_mod_65536
    as (_ & _ & _ & Hskip & _ & _ & Happly).
  split.
  - apply (Hskip _ 3%nat (Sample.window_change 65536 24) Sample.world
             65536 24 0 0 []); try reflexivity; try lia.
    right. reflexivity.
  - apply (Happly Sample.chan Sample.pty_req Sample.world
             "xterm" 80 24 0 0 (Wire.put_string ""));
      try reflexivity; try lia; discriminate.
Defined.

(** ** Every request *)

(** Run a request through [processReq], one goal per path. *)
Ltac run_request req :=
  unfold Chan.processReq, Chan.processReq_switch, Chan.msgLogError,
    Chan.sftp_NewServer, Chan.pty_Open, Winsize.setWindowSize,
    Winsize.IoctlSetWinsize;
  destruct req as [ty wr pl];
  cbn [Chan.Type_ Chan.WantReply Chan.Payload];
  step; repeat (branch; step).

(** Use what the path says about the type of the request in the goal. *)
Ltac settle :=
  repeat match goal with
         | H : (_ =? _)%string = _ |- _ => rewrite H
         end;
  cbn [orb andb negb].

(** Push an observation through the events of a trace. *)
Ltac watch f :=
  unfold f; repeat rewrite flat_map_app; cbn [flat_map app];
  repeat rewrite app_nil_r.

(** The path on which the "exec" loop runs out of rounds does not exist. *)
Ltac no_such_path :=
  match goal with
  | H : Chan.exec_loop (List.length ?pl) _ ?pl = None |- _ =>
      exfalso; revert H; apply exec_loop_total; lia
  end.

Section EveryRequest.
Import Go Env Codec Winsize Chan Obs.

Lemma processReq_replies (c : Channel) (req : Request) (w : World) :
  if WantReply req
  then exists payload,
         replies (w_trace (snd (processReq c req w)))
         = (replies (w_trace w) ++ [(snd (fst (processReq c req w)), payload)])%list
         /\ (snd (fst (processReq c req w)) = true -> payload = "")
         /\ (snd (fst (processReq c req w)) = false -> payload <> "")
  else replies (w_trace (snd (processReq c req w))) = replies (w_trace w).
Proof.
  run_request req; try no_such_path; watch replies; try reflexivity;
    eexists; (split; [reflexivity |]);
    split; intros E; try discriminate E; try reflexivity;
    cbn [String.append]; discriminate.
Qed.

Lemma processReq_failure (c : Channel) (req : Request) (w : World) :
  snd (fst (processReq c req w)) = false ->
  fst (fst (processReq c req w)) = c
  /\ spawned (w_trace (snd (processReq c req w))) = spawned (w_trace w)
  /\ wg_adds (w_trace (snd (processReq c req w))) = wg_adds (w_trace w).
Proof.
  run_request req; intros E; try discriminate E;
    watch spawned; watch wg_adds; repeat split; reflexivity.
Qed.

Lemma processReq_frame (c : Channel) (req : Request) (w : World) :
  channel (fst (fst (processReq c req w))) = channel c
  /\ user (fst (fst (processReq c req w))) = user c
  /\ baseCancel (fst (fst (processReq c req w))) = baseCancel c.
Proof.
  run_request req; repeat split; reflexivity.
Qed.

Lemma processReq_env (c : Channel) (req : Request) (w : World) :
  env (fst (fst (processReq c req w))) = env c
  \/ (Type_ req = "env" /\ snd (fst (processReq c req w)) = true
      /\ exists name value,
           env (fst (fst (processReq c req w)))
           = append (env c) (name ++ "=" ++ value)).
Proof.
  run_request req; try (left; reflexivity);
    right; types; repeat split; do 2 eexists; reflexivity.
Qed.

Lemma processReq_quiet (c : Channel) (req : Request) (w : World) :
  file_closes (w_trace (snd (processReq c req w))) = file_closes (w_trace w)
  /\ Bridge.closed (w_trace (snd (processReq c req w))) = Bridge.closed (w_trace w)
  /\ started (w_trace (snd (processReq c req w))) = started (w_trace w)
  /\ Bridge.sent (w_trace (snd (processReq c req w))) = Bridge.sent (w_trace w).
Proof.
  run_request req;
    watch file_closes; watch Bridge.closed; watch started; watch Bridge.sent;
    repeat split; reflexivity.
Qed.

End EveryRequest.

Section LoopInvariants.
Import Go Env Codec Winsize Chan Obs.

Lemma processReq_work (c : Channel) (req : Request) (w : World) :
  if snd (fst (processReq c req w)) && starts_work (Type_ req)
  then exists t,
         spawned (w_trace (snd (processReq c req w)))
         = (spawned (w_trace w) ++ [t])%list
         /\ wg_adds (w_trace (snd (processReq c req w)))
            = (wg_adds (w_trace w) ++ [1])%list
  else spawned (w_trace (snd (processReq c req w))) = spawned (w_trace w)
       /\ wg_adds (w_trace (snd (processReq c req w))) = wg_adds (w_trace w).
Proof.
  unfold starts_work.
  run_request req; settle; types; watch spawned; watch wg_adds;
    try (split; reflexivity); try (eexists; split; reflexivity).
Qed.

Lemma uint16_range (x : Z) : 0 <= uint16_of_uint32 x < 2 ^ 16.
Proof. unfold uint16_of_uint32. apply Z.mod_pos_bound. lia. Qed.

Lemma processReq_ioctls (c : Channel) (req : Request) (w : World) :
  ioctls (w_trace (snd (processReq c req w))) = ioctls (w_trace w)
  \/ exists row col,
       ioctls (w_trace (snd (processReq c req w)))
       = (ioctls (w_trace w)
          ++ [(Fd_int (pty (fst (fst (processReq c req w)))), row, col)])%list
       /\ 0 < row < 2 ^ 16 /\ 0 < col < 2 ^ 16.
Proof.
  run_request req; watch ioctls; try (left; reflexivity);
    right; do 2 eexists;
    repeat match goal with H : pty _ = Some _ |- _ => rewrite H; clear H end;
    (split; [reflexivity |]);
    match goal with
    | H : _ || _ = false |- _ =>
        apply orb_false_iff in H; destruct H as [Hr Hc];
        apply Z.eqb_neq in Hr, Hc
    end;
    match goal with
    | |- 0 < uint16_of_uint32 ?a < _ /\ 0 < uint16_of_uint32 ?b < _ =>
        pose proof (uint16_range a); pose proof (uint16_range b); lia
    end.
Qed.

Lemma Loop_frame (requests : list Request) :
  forall (c : Channel) (w : World),
    channel (fst (Loop c requests w)) = channel c
    /\ user (fst (Loop c requests w)) = user c
    /\ baseCancel (fst (Loop c requests w)) = baseCancel c.
Proof.
  induction requests as [| req rest IH]; intros c w; [repeat split |].
  cbn [Loop]. unfold bind.
  pose proof (processReq_frame c req w) as F.
  destruct (processReq c req w) as [[c1 ok] w1]. cbn [fst snd] in *.
  destruct (IH c1 w1) as (A & B & C). destruct F as (A1 & B1 & C1).
  repeat split; congruence.
Qed.

Lemma Loop_quiet (requests : list Request) :
  forall (c : Channel) (w : World),
    file_closes (w_trace (snd (Loop c requests w))) = file_closes (w_trace w)
    /\ Bridge.closed (w_trace (snd (Loop c requests w))) = Bridge.closed (w_trace w)
    /\ started (w_trace (snd (Loop c requests w))) = started (w_trace w)
    /\ Bridge.sent (w_trace (snd (Loop c requests w))) = Bridge.sent (w_trace w).
Proof.
  induction requests as [| req rest IH]; intros c w; [repeat split |].
  cbn [Loop]. unfold bind.
  pose proof (processReq_quiet c req w) as F.
  destruct (processReq c req w) as [[c1 ok] w1]. cbn [fst snd] in *.
  destruct (IH c1 w1) as (A & B & C & D). destruct F as (A1 & B1 & C1 & D1).
  repeat split; congruence.
Qed.

Lemma Loop_replies (requests : list Request) :
  forall (c : Channel) (w : World),
    List.length (replies (w_trace (snd (Loop c requests w))))
    = (List.length (replies (w_trace w))
       + List.length (filter WantReply requests))%nat.
Proof.
  induction requests as [| req rest IH]; intros c w; [cbn; lia |].
  cbn [Loop filter]. unfold bind.
  pose proof (processReq_replies c req w) as F.
  destruct (processReq c req w) as [[c1 ok] w1]. cbn [fst snd] in *.
  rewrite IH. destruct (WantReply req).
  - destruct F as (payload & -> & _). rewrite length_app. cbn [List.length]. lia.
  - rewrite F. lia.
Qed.

Lemma Loop_work (requests : list Request) :
  forall (c : Channel) (w : World),
    exists tasks,
      spawned (w_trace (snd (Loop c requests w)))
      = (spawned (w_trace w) ++ tasks)%list
      /\ wg_adds (w_trace (snd (Loop c requests w)))
         = (wg_adds (w_trace w) ++ repeat 1 (List.length tasks))%list.
Proof.
  induction requests as [| req rest IH]; intros c w.
  - exists []. cbn. now rewrite !app_nil_r.
  - cbn [Loop]. unfold bind.
    pose proof (processReq_work c req w) as F.
    destruct (processReq c req w) as [[c1 ok] w1]. cbn [fst snd] in *.
    destruct (IH c1 w1) as (tasks & S1 & A1). rewrite S1, A1.
    destruct (ok && starts_work (Type_ req)).
    + destruct F as (t & -> & ->). exists (t :: tasks).
      cbn [List.length repeat]. now rewrite <- !app_assoc.
    + destruct F as [-> ->]. now exists tasks.
Qed.

End LoopInvariants.

Section RequestKinds.
Import Go Env Codec Winsize Chan Obs Wire.

Lemma unsupported_request (c : Channel) (req : Request) (w : World) :
  known_type (Type_ req) = false ->
  processReq c req w
  = (c, false, logged w (failure req "unsupported req type" (Type_ req))).
Proof.
  unfold known_type. intros H.
  repeat (apply orb_false_iff in H; destruct H as [H ?]).
  rewrite <- reply_after_failure.
  unfold processReq, processReq_switch. settle. reflexivity.
Qed.

Lemma env_request (c : Channel) (req : Request) (w : World)
    (name value : string) (rest : list byte) :
  Type_ req = "env" -> fits name -> fits value ->
  Payload req = append_all (put_string name) (append_all (put_string value) rest) ->
  processReq c req w
  = (set_env c (append (env c) (name ++ "=" ++ value)), true,
     logged w (if WantReply req then [EvReply true ""] else [])).
Proof.
  intros Ht Hn Hv Hp.
  destruct (parseString_put_string name (append_all (put_string value) rest) Hn)
    as [P Q].
  destruct (parseString_put_string value rest Hv) as [P' _].
  unfold processReq, processReq_switch. rewrite Ht, Hp, P, Q, P'.
  cbn [String.eqb Ascii.eqb Bool.eqb]. unfold logged, append_all.
  destruct (WantReply req); step; rewrite ?app_nil_r; now destruct w.
Qed.

Lemma env_without_value (c : Channel) (req : Request) (w : World) (name : string) :
  Type_ req = "env" -> fits name ->
  Payload req = put_string name ->
  processReq c req w
  = (c, false,
     logged w (failure req "failed to get environment value"
                 "number of bytes in less than 4: 0")).
Proof.
  intros Ht Hn Hp.
  destruct (parseString_put_string name [] Hn) as [P Q].
  unfold append_all in P, Q. rewrite app_nil_r in P, Q.
  rewrite <- reply_after_failure.
  unfold processReq, processReq_switch. rewrite Ht, Hp, P, Q.
  reflexivity.
Qed.


Lemma Loop_env (requests : list Request) :
  forall (pairs : list (string * string)) (c : Channel) (w : World),
    Forall2 (fun req p =>
               Type_ req = "env" /\ fits (fst p) /\ fits (snd p)
               /\ Payload req = append_all (put_string (fst p)) (put_string (snd p)))
            requests pairs ->
    env (fst (Loop c requests w))
    = append_all (env c) (map (fun p => fst p ++ "=" ++ snd p) pairs).
Proof.
  induction requests as [| req rest IH]; intros pairs c w H;
    inversion H as [| ? p ? pairs' (Ht & Hn & Hv & Hp) Hrest]; subst.
  - unfold append_all. cbn. now rewrite app_nil_r.
  - cbn [Loop]. unfold bind.
    rewrite (env_request c req w (fst p) (snd p) []) by
      (try assumption; unfold append_all in *; now rewrite app_nil_r).
    cbn [fst]. rewrite (IH pairs') by assumption.
    unfold append, append_all. cbn [env set_env map]. now rewrite <- app_assoc.
Qed.

Lemma subsystem_other (c : Channel) (req : Request) (w : World)
    (name : string) (rest : list byte) :
  Type_ req = "subsystem" -> fits name -> name <> "sftp" ->
  Payload req = append_all (put_string name) rest ->
  processReq c req w
  = (c, false, logged w (failure req "unsupported system" name)).
Proof.
  intros Ht Hn Hne Hp.
  destruct (parseString_put_string name rest Hn) as [P _].
  rewrite <- reply_after_failure.
  unfold processReq, processReq_switch. rewrite Ht, Hp, P.
  apply String.eqb_neq in Hne. rewrite Hne. reflexivity.
Qed.

Lemma subsystem_sftp (c : Channel) (req : Request) (w : World) (rest : list byte) :
  Type_ req = "subsystem" ->
  Payload req = append_all (put_string "sftp") rest ->
  processReq c req w
  = match a_err (hd silent (w_script w)) with
    | Some err =>
        (c, false,
         {| w_script := tl (w_script w); w_fresh := w_fresh w;
            w_trace :=
              append_all (w_trace w)
                (EvSftpNewServer (channel c)
                 :: failure req "failed to create sftp server over channel" err) |})
    | None =>
        (set_sftpServer c (Some (w_fresh w)), true,
         {| w_script := tl (w_script w); w_fresh := S (w_fresh w);
            w_trace :=
              append_all (w_trace w)
                (EvSftpNewServer (channel c) :: EvWgAdd 1
                 :: EvGo (TaskSftpServe (Some (w_fresh w)))
                 :: if WantReply req then [EvReply true ""] else []) |})
    end.
Proof.
  intros Ht Hp.
  assert (Hn : fits "sftp") by reflexivity.
  destruct (parseString_put_string "sftp" rest Hn) as [P _].
  unfold processReq, processReq_switch. rewrite Ht, Hp, P.
  cbn [String.eqb Ascii.eqb Bool.eqb negb].
  unfold sftp_NewServer, msgLogError, failure, append_all. step.
  destruct (w_script w) as [| a script]; cbn [hd tl a_err silent];
    [| destruct (a_err a)];
    destruct (WantReply req); step; rewrite <- ?app_assoc; reflexivity.
Qed.

Lemma shell_started (c : Channel) (f : File) (req : Request) (w : World) :
  Type_ req = "shell" -> Payload req = [] -> pty c = Some f ->
  processReq c req w
  = (c, true,
     logged w (EvWgAdd 1 :: EvGo TaskShell
               :: if WantReply req then [EvReply true ""] else [])).
Proof.
  intros Ht Hp Hpty.
  unfold processReq, processReq_switch. rewrite Ht, Hp, Hpty.
  change (len (@nil byte) >? 0) with false.
  unfold logged, append_all.
  destruct (WantReply req); step; rewrite <- ?app_assoc; reflexivity.
Qed.

Lemma shells_repeat (n : nat) :
  forall (c : Channel) (f : File) (req : Request) (w : World),
    Type_ req = "shell" -> Payload req = [] -> pty c = Some f ->
    fst (Loop c (repeat req n) w) = c
    /\ spawned (w_trace (snd (Loop c (repeat req n) w)))
       = (spawned (w_trace w) ++ repeat TaskShell n)%list.
Proof.
  induction n as [| n IH]; intros c f req w Ht Hp Hpty.
  - cbn. now rewrite app_nil_r.
  - cbn [repeat Loop]. unfold bind.
    rewrite (shell_started c f req w) by assumption. cbn [fst].
    destruct (IH c f req
                (logged w (EvWgAdd 1 :: EvGo TaskShell
                           :: if WantReply req then [EvReply true ""] else []))
                Ht Hp Hpty) as [-> ->].
    split; [reflexivity |].
    unfold logged, append_all. cbn [w_trace]. watch spawned.
    destruct (WantReply req); cbn [flat_map app];
      rewrite ?app_nil_r, <- ?app_assoc; reflexivity.
Qed.


Lemma put_strings_cons (t : string) (rest : list string) (junk : list byte) :
  append_all (put_strings (t :: rest)) junk
  = append_all (put_string t) (append_all (put_strings rest) junk).
Proof.
  unfold append_all. cbn [put_strings flat_map]. now rewrite <- app_assoc.
Qed.

Lemma exec_loop_junk (tokens : list string) :
  forall fuel commands junk s n e,
    Forall fits tokens -> (List.length tokens < fuel)%nat ->
    junk <> [] -> parseString junk = (s, n, Some e) ->
    exec_loop fuel commands (append_all (put_strings tokens) junk)
    = Some (append_all commands tokens, Some e).
Proof.
  induction tokens as [| t rest IH]; intros fuel commands junk s n e Hf Hl Hj Hp.
  - destruct fuel as [| fuel]; [lia |].
    change (append_all (put_strings []) junk) with junk.
    rewrite exec_loop_more, Hp by assumption.
    unfold append_all. now rewrite app_nil_r.
  - inversion Hf as [| ? ? Ht Hrest]; subst.
    destruct fuel as [| fuel]; [lia |]. cbn [List.length] in Hl.
    rewrite put_strings_cons.
    destruct (parseString_put_string t (append_all (put_strings rest) junk) Ht)
      as [P Q].
    rewrite exec_loop_more.
    + rewrite P, Q, (IH fuel _ junk s n e) by (assumption || lia).
      unfold append, append_all. now rewrite <- app_assoc.
    + unfold put_string, put_uint32, BigEndian_AppendUint32, append_all.
      discriminate.
Qed.

Lemma exec_with_junk (c : Channel) (req : Request) (w : World)
    (tokens : list string) (junk : list byte) (s : string) (n : Z) (e : string) :
  Type_ req = "exec" -> Forall fits tokens ->
  junk <> [] -> parseString junk = (s, n, Some e) ->
  Payload req = append_all (put_strings tokens) junk ->
  processReq c req w
  = (c, false, logged w (failure req "failed to parse command" e)).
Proof.
  intros Ht Hf Hj Hp Hpl.
  rewrite <- reply_after_failure.
  unfold processReq, processReq_switch. rewrite Ht, Hpl.
  rewrite (exec_loop_junk tokens _ _ junk s n e); try assumption; [reflexivity |].
  unfold append_all. rewrite length_app.
  pose proof (length_put_strings tokens).
  destruct junk; [congruence | cbn [List.length]; lia].
Qed.

Lemma parseString_parts (b : list byte) (s : string) (n : Z) :
  parseString b = (s, n, None) ->
  b = (firstn 4 b ++ bytes_of s ++ slice_from b n)%list
  /\ len (bytes_of s) = n - 4 /\ 4 <= n <= len b.
Proof.
  intros H. pose proof (parseString_consumed b s n H) as C.
  unfold parseString in H.
  destruct (Z.ltb_spec (len b) 4); [discriminate |].
  pose proof (Uint32_range (slice b 0 4)) as R.
  rewrite int_of_uint32_id, int_add_4 in H by assumption.
  destruct (Z.ltb_spec (len b) (BigEndian_Uint32 (slice b 0 4) + 4));
    [discriminate |].
  injection H as <- <-.
  set (l := BigEndian_Uint32 (slice b 0 4)) in *.
  unfold bytes_of. rewrite list_byte_of_string_of_list_byte.
  rewrite slice_after_prefix. unfold slice_from, len in *.
  replace (Z.to_nat (l + 4)) with (Z.to_nat l + 4)%nat by lia.
  rewrite <- skipn_skipn, !firstn_skipn.
  repeat split; try lia.
  rewrite length_firstn, length_skipn. lia.
Qed.

End RequestKinds.

Arguments Obs.wg_dones : simpl never.
Arguments Obs.file_closes : simpl never.
Arguments Obs.replies : simpl never.
Arguments Obs.wg_adds : simpl never.
Arguments Obs.ioctls : simpl never.

Section BridgeInvariants.
Import Go Env Codec Winsize Chan Obs Wire Bridge.

Lemma wg_dones_app (a b : list Event) :
  wg_dones (a ++ b) = (wg_dones a + wg_dones b)%nat.
Proof. unfold wg_dones. now rewrite filter_app, length_app. Qed.


Lemma wg_dones_calls (tr : list Event) : wg_dones (calls tr) = wg_dones tr.
Proof.
  unfold wg_dones, calls.
  induction tr as [| e tr IH]; [reflexivity |].
  destruct e; cbn [filter List.length]; now rewrite ?IH.
Qed.

Lemma finishCmd_wg_dones (c : Channel) (cmd : Cmd) (w : World) :
  wg_dones (w_trace (snd (finishCmd c cmd w))) = wg_dones (w_trace w).
Proof.
  rewrite <- wg_dones_calls, finishCmd_calls. unfold append_all.
  rewrite wg_dones_app, wg_dones_calls. unfold wg_dones. cbn. lia.
Qed.



(** Bring in what is known of a completion the goal has run. *)
Ltac finished :=
  match goal with
  | H : finishCmd ?c ?cmd ?w = (?r, ?w') |- _ =>
      let S1 := fresh "Hsent" in
      let S2 := fresh "Hclosed" in
      let S3 := fresh "Hstarted" in
      let S4 := fresh "Hdone" in
      let S5 := fresh "Hstate" in
      pose proof (finishCmd_sent c cmd w) as S1;
      pose proof (finishCmd_closed c cmd w) as S2;
      pose proof (finishCmd_started c cmd w) as S3;
      pose proof (finishCmd_wg_dones c cmd w) as S4;
      pose proof (finishCmd_state c cmd w) as S5;
      rewrite H in S1, S2, S3, S4, S5;
      cbn [fst snd w_trace Process CmdProcessState set_started] in S1, S2, S3, S4, S5
  end.

(** Push the observations of the bridge through the events of a trace. *)
Ltac survey :=
  repeat rewrite sent_app in *; repeat rewrite closed_app in *;
  repeat rewrite started_app in *; repeat rewrite wg_dones_app in *;
  unfold sent, closed, started, wg_dones in *;
  cbn [flat_map filter app List.length] in *;
  repeat rewrite app_nil_r in *; repeat rewrite Nat.add_0_r in *.


Lemma run_process_pipe_start_fails (c : Channel) (commands : list string)
    (w : World) (e : string) :
  tty c = None ->
  a_err (hd silent (w_script w)) = Some e ->
  fst (run_process c (TaskExec commands) w) = Returned
  /\ sent (w_trace (snd (run_process c (TaskExec commands) w)))
     = (sent (w_trace w) ++ [("exit-status", false, [x00; x00; x00; xff])])%list
  /\ closed (w_trace (snd (run_process c (TaskExec commands) w)))
     = (closed (w_trace w) ++ [channel c])%list
  /\ wg_dones (w_trace (snd (run_process c (TaskExec commands) w)))
     = S (wg_dones (w_trace w)).
Proof.
  intros Htty H. unfold run_process, noTtyCmd, cmd_Start. rewrite Htty. step.
  destruct (w_script w) as [| a script]; cbn [hd] in H; [discriminate |].
  rewrite H. step.
  repeat (branch; step); finished.
  all: unfold exitcode_of in Hsent; rewrite Hstate in Hsent.
  all: survey.
  all: rewrite Hsent, Hclosed, Hdone.
  all: repeat split; try reflexivity; lia.
Qed.

Lemma run_process_returns (c : Channel) (t : Task) (w : World) :
  (t = TaskShell \/ exists commands, t = TaskExec commands) ->
  fst (run_process c t w) = Returned ->
  wg_dones (w_trace (snd (run_process c t w))) = S (wg_dones (w_trace w)).
Proof.
  intros [-> | [commands ->]];
    unfold run_process, ttyCmd, noTtyCmd, cmd_Start, file_Close;
    step; repeat (branch; step); intros R; try discriminate;
    finished; survey; rewrite Hdone; lia.
Qed.


(** The arguments a task passes after "bash". *)
Lemma tty_command (c : Channel) (t : Task) (w : World) (f : File) (args : list string) :
  tty c = Some f ->
  (t = TaskShell /\ args = []) \/ t = TaskExec args ->
  exists cmd,
    started (w_trace (snd (run_process c t w))) = (started (w_trace w) ++ [cmd])%list
    /\ Path cmd = "bash" /\ Args cmd = "bash" :: args
    /\ CmdEnv cmd
       = ("USER=" ++ Username (user c)) :: ("HOME=" ++ HomeDir (user c)) :: env c
    /\ Dir cmd = HomeDir (user c)
    /\ Stdin cmd = Some (WireFile (Some f))
    /\ Stdout cmd = Some (WireFile (Some f))
    /\ Stderr cmd = Some (WireFile (Some f))
    /\ ExtraFiles cmd = [Some f]
    /\ Setsid cmd = true /\ Setctty cmd = true /\ Ctty cmd = 3.
Proof.
  intros Htty [[-> ->] | ->];
    unfold run_process, ttyCmd, cmd_Start, file_Close; rewrite Htty;
    step; repeat (branch; step); try finished; survey; eexists;
    (split; [first [exact Hstarted | reflexivity] | repeat split]).
Qed.

Lemma pipe_command (c : Channel) (commands : list string) (w : World) :
  tty c = None ->
  exists cmd,
    started (w_trace (snd (run_process c (TaskExec commands) w)))
    = (started (w_trace w) ++ [cmd])%list
    /\ Path cmd = "bash" /\ Args cmd = "bash" :: commands
    /\ CmdEnv cmd = [] /\ Dir cmd = ""
    /\ Stdin cmd = None
    /\ Stdout cmd = Some (WireChannel (channel c))
    /\ Stderr cmd = Some (WireChannel (channel c))
    /\ ExtraFiles cmd = []
    /\ Setsid cmd = false /\ Setctty cmd = false.
Proof.
  intros Htty.
  unfold run_process, noTtyCmd, cmd_Start; rewrite Htty;
    step; repeat (branch; step); finished; survey; eexists;
    (split; [exact Hstarted | repeat split]).
Qed.

End BridgeInvariants.

Section AcceptFacts.
Import Go Env Chan Conn Accept.

(** Run the state-passing code of the goal one call further. *)
Ltac advance :=
  unfold Accept.bind, Accept.ret, Accept.call, Accept.answer, Accept.alloc; cbn.

Lemma procesNewChan_rejects (s : ServerConn) (nc : NewChannel) (st : State) :
  is_session nc = false ->
  procesNewChan s nc st
  = (s, {| s_script := tl (s_script st); s_fresh := s_fresh st;
           s_calls := append (s_calls st)
                        (Reject nc UnknownChannelType (ChannelType nc)) |}).
Proof.
  unfold is_session, procesNewChan. intros ->. advance.
  destruct (s_script st); reflexivity.
Qed.

Lemma procesNewChan_accepts (s : ServerConn) (nc : NewChannel) (st : State) :
  is_session nc = true ->
  procesNewChan s nc st
  = match a_err (hd silent (s_script st)) with
    | Some err =>
        let c := newChannel s None (s_fresh st) in
        (set_chans s (append (chans s) c),
         {| s_script := tl (s_script st); s_fresh := S (s_fresh st);
            s_calls :=
              append_all (s_calls st)
                [AcceptChannel nc;
                 Base (EvLog Info "failed to accept channel" [("err", err)]);
                 Base (EvWgAdd 1); GoLoop c] |})
    | None =>
        let c := newChannel s (Some (s_fresh st)) (S (s_fresh st)) in
        (set_chans s (append (chans s) c),
         {| s_script := tl (s_script st); s_fresh := S (S (s_fresh st));
            s_calls :=
              append_all (s_calls st)
                [AcceptChannel nc; Base (EvWgAdd 1); GoLoop c] |})
    end.
Proof.
  unfold is_session, procesNewChan. intros ->. unfold append, append_all. advance.
  destruct (s_script st) as [| a script]; cbn [hd tl a_err silent];
    [| destruct (a_err a)]; advance; unfold append, append_all;
    rewrite <- ?app_assoc; reflexivity.
Qed.


Lemma loops_app (a b : list Call) : loops (a ++ b) = (loops a ++ loops b)%list.
Proof. apply flat_map_app. Qed.

Lemma rejections_app (a b : list Call) :
  rejections (a ++ b) = (rejections a ++ rejections b)%list.
Proof. apply flat_map_app. Qed.

Lemma additions_app (a b : list Call) :
  additions (a ++ b) = (additions a ++ additions b)%list.
Proof. apply flat_map_app. Qed.

(** What one notification adds: a session gives one channel, recorded and
    started; anything else gives one rejection. *)
Lemma procesNewChan_adds (s : ServerConn) (nc : NewChannel) (st : State) :
  exists cs,
    chans (fst (procesNewChan s nc st)) = (chans s ++ cs)%list
    /\ loops (s_calls (snd (procesNewChan s nc st))) = (loops (s_calls st) ++ cs)%list
    /\ additions (s_calls (snd (procesNewChan s nc st)))
       = (additions (s_calls st) ++ repeat 1 (List.length cs))%list
    /\ rejections (s_calls (snd (procesNewChan s nc st)))
       = (rejections (s_calls st)
          ++ if is_session nc then [] else [(ChannelType nc, ChannelType nc)])%list
    /\ List.length cs = (if is_session nc then 1 else 0)%nat
    /\ Forall (fun c => pty c = None /\ tty c = None /\ env c = []
                        /\ sftpServer c = None /\ user c = conn_user s) cs
    /\ sshcon (fst (procesNewChan s nc st)) = sshcon s
    /\ conn_user (fst (procesNewChan s nc st)) = conn_user s
    /\ conn_baseCancel (fst (procesNewChan s nc st)) = conn_baseCancel s.
Proof.
  destruct (is_session nc) eqn:E.
  - rewrite procesNewChan_accepts by assumption.
    destruct (a_err (hd silent (s_script st))); cbn zeta; cbn [fst snd s_calls];
      eexists [_]; unfold append, append_all;
      rewrite loops_app, additions_app, rejections_app;
      cbn; rewrite ?app_nil_r; repeat split; repeat constructor.
  - rewrite procesNewChan_rejects by assumption. cbn [fst snd s_calls].
    exists []. unfold append.
    rewrite loops_app, additions_app, rejections_app.
    cbn; rewrite ?app_nil_r; repeat split; constructor.
Qed.

Lemma serve_adds (newchans : list NewChannel) :
  forall (s : ServerConn) (st : State),
    exists cs,
      chans (fst (serve s newchans st)) = (chans s ++ cs)%list
      /\ loops (s_calls (snd (serve s newchans st))) = (loops (s_calls st) ++ cs)%list
      /\ additions (s_calls (snd (serve s newchans st)))
         = (additions (s_calls st) ++ repeat 1 (List.length cs))%list
      /\ rejections (s_calls (snd (serve s newchans st)))
         = (rejections (s_calls st)
            ++ map (fun nc => (ChannelType nc, ChannelType nc))
                 (filter (fun nc => negb (is_session nc)) newchans))%list
      /\ List.length cs = List.length (filter is_session newchans)
      /\ Forall (fun c => pty c = None /\ tty c = None /\ env c = []
                          /\ sftpServer c = None /\ user c = conn_user s) cs
      /\ sshcon (fst (serve s newchans st)) = sshcon s
      /\ conn_user (fst (serve s newchans st)) = conn_user s
      /\ conn_baseCancel (fst (serve s newchans st)) = conn_baseCancel s.
Proof.
  induction newchans as [| nc rest IH]; intros s st.
  - exists []. cbn. rewrite !app_nil_r. repeat split. constructor.
  - cbn [serve]. unfold Accept.bind.
    destruct (procesNewChan_adds s nc st)
      as (cs1 & C1 & L1 & A1 & R1 & N1 & F1 & T1 & U1 & B1).
    destruct (procesNewChan s nc st) as [s1 st1]. cbn [fst snd] in *.
    destruct (IH s1 st1) as (cs2 & C2 & L2 & A2 & R2 & N2 & F2 & T2 & U2 & B2).
    exists (cs1 ++ cs2)%list.
    rewrite C2, C1, L2, L1, A2, A1, R2, R1, T2, U2, B2, T1, U1, B1.
    rewrite length_app, repeat_app, <- !app_assoc.
    repeat split.
    + cbn [filter]. destruct (is_session nc); cbn [negb map app]; reflexivity.
    + cbn [filter]. destruct (is_session nc); cbn [List.length]; lia.
    + apply Forall_app. split; [assumption |].
      rewrite U1 in F2. exact F2.
Qed.


Lemma Loop_adds (newchans : list NewChannel) (s : ServerConn) (st : State) :
  exists cs,
    chans (fst (Accept.Loop s newchans st)) = (chans s ++ cs)%list
    /\ loops (s_calls (snd (Accept.Loop s newchans st)))
       = (loops (s_calls st) ++ cs)%list
    /\ additions (s_calls (snd (Accept.Loop s newchans st)))
       = (additions (s_calls st) ++ repeat 1 (List.length cs))%list
    /\ rejections (s_calls (snd (Accept.Loop s newchans st)))
       = (rejections (s_calls st)
          ++ map (fun nc => (ChannelType nc, ChannelType nc))
               (filter (fun nc => negb (is_session nc)) newchans))%list
    /\ List.length cs = List.length (filter is_session newchans)
    /\ Forall (fun c => pty c = None /\ tty c = None /\ env c = []
                        /\ sftpServer c = None /\ user c = conn_user s) cs
    /\ last (s_calls (snd (Accept.Loop s newchans st))) GoDiscardRequests
       = SshconWait (sshcon s).
Proof.
  unfold Accept.Loop, Accept.bind.
  destruct (serve_adds newchans s st)
    as (cs & C & L & A & R & N & F & _).
  destruct (serve s newchans st) as [s1 st1]. cbn [fst snd] in *.
  exists cs. advance. unfold append.
  destruct (s_script st1); cbn [fst snd s_calls];
    rewrite loops_app, additions_app, rejections_app, last_last;
    cbn [loops additions rejections flat_map app]; rewrite !app_nil_r;
    repeat split; assumption.
Qed.

Lemma recorded_is_released (s : ServerConn) (c : Channel) :
  In c (chans s) ->
  In (EvCancel (baseCancel c)) (teardown s)
  /\ (forall ch, channel c = Some ch -> In (EvChannelClose (Some ch)) (teardown s)).
Proof.
  intros H. unfold teardown, append_all.
  assert (R : forall e, In e (release c) -> In e (flat_map release (chans s))).
  { intros e He. apply in_flat_map. now exists c. }
  split.
  - right. apply in_or_app. left. apply R. now left.
  - intros ch Hch. right. apply in_or_app. left. apply R.
    unfold release, append_all. right. rewrite Hch.
    apply in_or_app. right. apply in_or_app. right. now left.
Qed.

Lemma NewFromConn_handshake_fails (lookup : string -> User + string)
    (conn : NetConn) (st : State) (e : string) :
  a_err (hd silent (s_script st)) = Some e ->
  NewFromConn lookup conn st
  = (None, Some ("failed to create a new connection: " ++ e),
     {| s_script := tl (s_script st); s_fresh := s_fresh st;
        s_calls := append (s_calls st) (NewServerConn conn) |}).
Proof.
  intros H. unfold NewFromConn. advance.
  destruct (s_script st) as [| a script]; cbn [hd] in H; [discriminate |].
  rewrite H. reflexivity.
Qed.

Lemma NewFromConn_unknown_user (lookup : string -> User + string)
    (conn : NetConn) (st : State) (e : string) :
  a_err (hd silent (s_script st)) = None ->
  lookup (remote_user conn) = inr e ->
  NewFromConn lookup conn st
  = (None, Some ("cannot find user " ++ remote_user conn ++ ": " ++ e),
     {| s_script := tl (tl (s_script st)); s_fresh := S (s_fresh st);
        s_calls :=
          append_all (s_calls st)
            [NewServerConn conn; UserLookup (remote_user conn);
             Base (EvTransportClose (s_fresh st))] |}).
Proof.
  intros H Hl. unfold NewFromConn. advance.
  destruct (s_script st) as [| a script]; cbn [hd] in H; [| rewrite H];
    rewrite Hl; advance; unfold append, append_all;
    [| destruct script]; rewrite <- ?app_assoc; reflexivity.
Qed.

Lemma NewFromConn_succeeds (lookup : string -> User + string)
    (conn : NetConn) (st : State) (u : User) :
  a_err (hd silent (s_script st)) = None ->
  lookup (remote_user conn) = inl u ->
  NewFromConn lookup conn st
  = (Some {| sshcon := s_fresh st; conn_baseCancel := S (s_fresh st);
             chans := []; conn_user := u |}, None,
     {| s_script := tl (s_script st); s_fresh := S (S (s_fresh st));
        s_calls :=
          append_all (s_calls st)
            [NewServerConn conn; UserLookup (remote_user conn);
             GoDiscardRequests] |}).
Proof.
  intros H Hl. unfold NewFromConn. advance.
  destruct (s_script st) as [| a script]; cbn [hd] in H; [| rewrite H];
    rewrite Hl; advance; unfold append, append_all;
    rewrite <- ?app_assoc; reflexivity.
Qed.

End AcceptFacts.

(** ** Further properties of the request loop *)

(** X1. A request that wants a reply gets exactly one, carrying the outcome
    of the request, with an empty payload on success and a diagnostic text on
    failure; a request that wants none gets none. A run of the loop sends as
    many replies as it handled requests that want one. *)
Theorem one_reply_per_request :
  (forall c req w,
     if Chan.WantReply req
     then exists payload,
            Obs.replies (Env.w_trace (snd (Chan.processReq c req w)))
            = (Obs.replies (Env.w_trace w)
               ++ [(snd (fst (Chan.processReq c req w)), payload)])%list
            /\ (snd (fst (Chan.processReq c req w)) = true -> payload = "")
            /\ (snd (fst (Chan.processReq c req w)) = false -> payload <> "")
     else Obs.replies (Env.w_trace (snd (Chan.processReq c req w)))
          = Obs.replies (Env.w_trace w)) /\
  (forall requests c w,
     List.length (Obs.replies (Env.w_trace (snd (Chan.Loop c requests w))))
     = (List.length (Obs.replies (Env.w_trace w))
        + List.length (filter Chan.WantReply requests))%nat).
Proof.
  split.
  - apply processReq_replies.
  - apply Loop_replies.
Qed.

(** X2. A request that fails leaves the channel exactly as it was, starts no
    goroutine and adds nothing to the wait group. *)
Theorem failed_request_changes_nothing (c : Chan.Channel) (req : Chan.Request)
    (w : Env.World) :
  snd (fst (Chan.processReq c req w)) = false ->
  fst (fst (Chan.processReq c req w)) = c
  /\ Chan.spawned (Env.w_trace (snd (Chan.processReq c req w)))
     = Chan.spawned (Env.w_trace w)
  /\ Obs.wg_adds (Env.w_trace (snd (Chan.processReq c req w)))
     = Obs.wg_adds (Env.w_trace w).
Proof.
  apply processReq_failure.
Qed.

Lemma failed_request_changes_nothing_witness :
  fst (fst (Chan.processReq Demo.with_pty (Sample.exec []) Sample.world))
  = Demo.with_pty
  /\ Chan.spawned
       (Env.w_trace (snd (Chan.processReq Demo.with_pty (Sample.exec []) Sample.world)))
     = Chan.spawned (Env.w_trace Sample.world)
  /\ Obs.wg_adds
       (Env.w_trace (snd (Chan.processReq Demo.with_pty (Sample.exec []) Sample.world)))
     = Obs.wg_adds (Env.w_trace Sample.world).
Proof.
  apply (failed_request_changes_nothing Demo.with_pty (Sample.exec []) Sample.world).
  reflexivity.
Defined.

(** X3. Over any run of the loop the stream, the user and the cancel
    function of the channel stay what they were, and the loop itself closes
    no file and no channel, starts no command and sends no out-of-band
    message. *)
Theorem loop_keeps_stream_and_closes_nothing :
  forall requests c w,
    (Chan.channel (fst (Chan.Loop c requests w)) = Chan.channel c
     /\ Chan.user (fst (Chan.Loop c requests w)) = Chan.user c
     /\ Chan.baseCancel (fst (Chan.Loop c requests w)) = Chan.baseCancel c)
    /\ Obs.file_closes (Env.w_trace (snd (Chan.Loop c requests w)))
       = Obs.file_closes (Env.w_trace w)
    /\ Bridge.closed (Env.w_trace (snd (Chan.Loop c requests w)))
       = Bridge.closed (Env.w_trace w)
    /\ Chan.started (Env.w_trace (snd (Chan.Loop c requests w)))
       = Chan.started (Env.w_trace w)
    /\ Bridge.sent (Env.w_trace (snd (Chan.Loop c requests w)))
       = Bridge.sent (Env.w_trace w).
Proof.
  intros requests c w. split.
  - apply Loop_frame.
  - apply Loop_quiet.
Qed.

(** X4. A request of any type other than "subsystem", "pty-req",
    "window-change", "env", "shell" and "exec" fails with "unsupported req
    type" and the type it named, and changes nothing. *)
Theorem unknown_request_type_fails (c : Chan.Channel) (req : Chan.Request)
    (w : Env.World) :
  Obs.known_type (Chan.Type_ req) = false ->
  Chan.processReq c req w
  = (c, false,
     Chan.logged w (Chan.failure req "unsupported req type" (Chan.Type_ req))).
Proof.
  apply unsupported_request.
Qed.

Lemma unknown_request_type_fails_witness :
  Chan.processReq Sample.chan
    {| Chan.Type_ := "x11-req"; Chan.WantReply := true; Chan.Payload := [] |}
    Sample.world
  = (Sample.chan, false,
     Chan.logged Sample.world
       [Env.EvLog Env.Error "unsupported req type" [("err", "x11-req")];
        Env.EvReply false "unsupported req type: x11-req"]).
Proof.
  apply (unknown_request_type_fails Sample.chan
           {| Chan.Type_ := "x11-req"; Chan.WantReply := true; Chan.Payload := [] |}
           Sample.world).
  reflexivity.
Defined.

(** X5. An "env" request whose payload encodes a name and a value succeeds
    and appends "name=value" to the environment of the channel, after what is
    there and without touching anything else; a run of such requests appends
    their assignments in the order of arrival, repeated names included. *)
Theorem env_request_appends :
  (forall c req w name value rest,
     Chan.Type_ req = "env" -> Wire.fits name -> Wire.fits value ->
     Chan.Payload req
     = Go.append_all (Wire.put_string name)
         (Go.append_all (Wire.put_string value) rest) ->
     Chan.processReq c req w
     = (Chan.set_env c (Go.append (Chan.env c) (name ++ "=" ++ value)), true,
        Chan.logged w (if Chan.WantReply req then [Env.EvReply true ""] else []))) /\
  (forall requests pairs c w,
     Forall2 (fun req p =>
                Chan.Type_ req = "env" /\ Wire.fits (fst p) /\ Wire.fits (snd p)
                /\ Chan.Payload req
                   = Go.append_all (Wire.put_string (fst p)) (Wire.put_string (snd p)))
             requests pairs ->
     Chan.env (fst (Chan.Loop c requests w))
     = Go.append_all (Chan.env c) (map (fun p => fst p ++ "=" ++ snd p) pairs)).
Proof.
  split.
  - intros c req w name value rest Ht Hn Hv Hp.
    now apply (env_request c req w name value rest).
  - intros requests pairs c w H. now apply Loop_env.
Qed.

Lemma env_request_appends_witness :
  Chan.env
    (fst (Chan.Loop Sample.chan
            [Demo.env_req "LANG" "C"; Demo.env_req "TERM" "xterm";
             Demo.env_req "LANG" "en_US.UTF-8"] Sample.world))
  = ["LANG=C"; "TERM=xterm"; "LANG=en_US.UTF-8"].
Proof.
  destruct env_request_appends as [_ Hloop].
  apply (Hloop [Demo.env_req "LANG" "C"; Demo.env_req "TERM" "xterm";
                Demo.env_req "LANG" "en_US.UTF-8"]
               [("LANG", "C"); ("TERM", "xterm"); ("LANG", "en_US.UTF-8")]
               Sample.chan Sample.world).
  repeat constructor.
Defined.

(** X6. Whatever the request, the environment of the channel afterwards is
    the one before, or the one before with one assignment appended; the
    latter only for an "env" request that succeeds. *)
Theorem env_changes_only_on_env :
  forall c req w,
    Chan.env (fst (fst (Chan.processReq c req w))) = Chan.env c
    \/ (Chan.Type_ req = "env" /\ snd (fst (Chan.processReq c req w)) = true
        /\ exists name value,
             Chan.env (fst (fst (Chan.processReq c req w)))
             = Go.append (Chan.env c) (name ++ "=" ++ value)).
Proof.
  apply processReq_env.
Qed.

(** X7. An "env" request that carries a name and no value fails, reporting
    that the value is missing its four bytes, and sets nothing. *)
Theorem env_without_value_fails (c : Chan.Channel) (req : Chan.Request)
    (w : Env.World) (name : string) :
  Chan.Type_ req = "env" -> Wire.fits name ->
  Chan.Payload req = Wire.put_string name ->
  Chan.processReq c req w
  = (c, false,
     Chan.logged w (Chan.failure req "failed to get environment value"
                      "number of bytes in less than 4: 0")).
Proof.
  apply env_without_value.
Qed.

Lemma env_without_value_fails_witness :
  Chan.processReq Sample.chan
    {| Chan.Type_ := "env"; Chan.WantReply := false;
       Chan.Payload := Wire.put_string "LANG" |} Sample.world
  = (Sample.chan, false,
     Chan.logged Sample.world
       [Env.EvLog Env.Error "failed to get environment value"
          [("err", "number of bytes in less than 4: 0")]]).
Proof.
  apply (env_without_value_fails Sample.chan
           {| Chan.Type_ := "env"; Chan.WantReply := false;
              Chan.Payload := Wire.put_string "LANG" |} Sample.world "LANG");
    reflexivity.
Defined.

(** X8. A "subsystem" request is served only for the name "sftp", compared
    as it is written: any other name fails with "unsupported system". For
    "sftp" the server is built over the stream of the channel; when that
    fails the request fails and the channel is unchanged, and otherwise the
    server is stored in the channel and one goroutine is started for it. *)
Theorem subsystem_only_sftp :
  (forall c req w name rest,
     Chan.Type_ req = "subsystem" -> Wire.fits name -> name <> "sftp" ->
     Chan.Payload req = Go.append_all (Wire.put_string name) rest ->
     Chan.processReq c req w
     = (c, false, Chan.logged w (Chan.failure req "unsupported system" name))) /\
  (forall c req w rest,
     Chan.Type_ req = "subsystem" ->
     Chan.Payload req = Go.append_all (Wire.put_string "sftp") rest ->
     Chan.processReq c req w
     = match Env.a_err (hd Env.silent (Env.w_script w)) with
       | Some err =>
           (c, false,
            {| Env.w_script := tl (Env.w_script w); Env.w_fresh := Env.w_fresh w;
               Env.w_trace :=
                 Go.append_all (Env.w_trace w)
                   (Env.EvSftpNewServer (Chan.channel c)
                    :: Chan.failure req
                         "failed to create sftp server over channel" err) |})
       | None =>
           (Chan.set_sftpServer c (Some (Env.w_fresh w)), true,
            {| Env.w_script := tl (Env.w_script w);
               Env.w_fresh := S (Env.w_fresh w);
               Env.w_trace :=
                 Go.append_all (Env.w_trace w)
                   (Env.EvSftpNewServer (Chan.channel c) :: Env.EvWgAdd 1
                    :: Env.EvGo (Env.TaskSftpServe (Some (Env.w_fresh w)))
                    :: if Chan.WantReply req then [Env.EvReply true ""] else []) |})
       end).
Proof.
  split.
  - intros c req w name rest Ht Hn Hne Hp.
    now apply (subsystem_other c req w name rest).
  - intros c req w rest Ht Hp. now apply (subsystem_sftp c req w rest).
Qed.

Lemma subsystem_only_sftp_witness :
  Chan.processReq Sample.chan (Demo.subsystem "SFTP") Sample.world
  = (Sample.chan, false,
     Chan.logged Sample.world
       (Chan.failure (Demo.subsystem "SFTP") "unsupported system" "SFTP"))
  /\ snd (fst (Chan.processReq Sample.chan (Demo.subsystem "sftp") Sample.world))
     = true.
Proof.
  destruct subsystem_only_sftp as [Hother Hsftp].
  split.
  - apply (Hother Sample.chan (Demo.subsystem "SFTP") Sample.world "SFTP" []);
      try reflexivity. discriminate.
  - rewrite (Hsftp Sample.chan (Demo.subsystem "sftp") Sample.world []);
      reflexivity.
Defined.

(** X9. On a channel that holds a pty a "shell" request with an empty
    payload succeeds, leaves the channel as it was and starts one goroutine
    for the shell; nothing keeps count of it, so the same request sent n
    times starts n shells. *)
Theorem shell_starts_every_time :
  (forall c f req w,
     Chan.Type_ req = "shell" -> Chan.Payload req = [] -> Chan.pty c = Some f ->
     Chan.processReq c req w
     = (c, true,
        Chan.logged w (Env.EvWgAdd 1 :: Env.EvGo Env.TaskShell
                       :: if Chan.WantReply req then [Env.EvReply true ""] else []))) /\
  (forall n c f req w,
     Chan.Type_ req = "shell" -> Chan.Payload req = [] -> Chan.pty c = Some f ->
     fst (Chan.Loop c (repeat req n) w) = c
     /\ Chan.spawned (Env.w_trace (snd (Chan.Loop c (repeat req n) w)))
        = (Chan.spawned (Env.w_trace w) ++ repeat Env.TaskShell n)%list).
Proof.
  split.
  - intros c f req w. apply shell_started.
  - intros n c f req w. apply shells_repeat.
Qed.

Lemma shell_starts_every_time_witness :
  Chan.spawned
    (Env.w_trace
       (snd (Chan.Loop Demo.with_pty (repeat (Sample.shell []) 3) Sample.world)))
  = [Env.TaskShell; Env.TaskShell; Env.TaskShell].
Proof.
  destruct shell_starts_every_time as [_ Hrepeat].
  apply (Hrepeat 3%nat Demo.with_pty 3%nat (Sample.shell []) Sample.world);
    reflexivity.
Defined.

(** X10. An "exec" request fails as a whole, with "failed to parse command",
    when bytes that do not parse as a length-prefixed string follow its
    tokens, however many tokens were read before; the channel is unchanged
    and nothing is started. *)
Theorem exec_fails_on_trailing_bytes (c : Chan.Channel) (req : Chan.Request)
    (w : Env.World) (tokens : list string) (junk : list byte)
    (s : string) (n : Z) (e : string) :
  Chan.Type_ req = "exec" -> Forall Wire.fits tokens ->
  junk <> [] -> Codec.parseString junk = (s, n, Some e) ->
  Chan.Payload req = Go.append_all (Wire.put_strings tokens) junk ->
  Chan.processReq c req w
  = (c, false, Chan.logged w (Chan.failure req "failed to parse command" e)).
Proof.
  apply exec_with_junk.
Qed.

Lemma exec_fails_on_trailing_bytes_witness :
  Chan.processReq Sample.chan
    {| Chan.Type_ := "exec"; Chan.WantReply := true;
       Chan.Payload := Go.append_all (Wire.put_strings ["ls"; "-l"]) [x00; x00] |}
    Sample.world
  = (Sample.chan, false,
     Chan.logged Sample.world
       [Env.EvLog Env.Error "failed to parse command"
          [("err", "number of bytes in less than 4: 2")];
        Env.EvReply false
          "failed to parse command: number of bytes in less than 4: 2"]).
Proof.
  apply (exec_fails_on_trailing_bytes Sample.chan
           {| Chan.Type_ := "exec"; Chan.WantReply := true;
              Chan.Payload := Go.append_all (Wire.put_strings ["ls"; "-l"]) [x00; x00] |}
           Sample.world ["ls"; "-l"] [x00; x00] "" 0
           "number of bytes in less than 4: 2");
    try reflexivity.
  - repeat constructor.
  - discriminate.
Defined.

(** X11. A request starts a goroutine exactly when it succeeds and is a
    "subsystem", "shell" or "exec" request, it starts one, and it adds 1 to
    the wait group for it; no other request touches the wait group. Over a
    run of the loop the wait group has been added 1 once for every goroutine
    started. *)
Theorem every_goroutine_is_counted :
  (forall c req w,
     if snd (fst (Chan.processReq c req w)) && Obs.starts_work (Chan.Type_ req)
     then exists t,
            Chan.spawned (Env.w_trace (snd (Chan.processReq c req w)))
            = (Chan.spawned (Env.w_trace w) ++ [t])%list
            /\ Obs.wg_adds (Env.w_trace (snd (Chan.processReq c req w)))
               = (Obs.wg_adds (Env.w_trace w) ++ [1])%list
     else Chan.spawned (Env.w_trace (snd (Chan.processReq c req w)))
          = Chan.spawned (Env.w_trace w)
          /\ Obs.wg_adds (Env.w_trace (snd (Chan.processReq c req w)))
             = Obs.wg_adds (Env.w_trace w)) /\
  (forall requests c w,
     exists tasks,
       Chan.spawned (Env.w_trace (snd (Chan.Loop c requests w)))
       = (Chan.spawned (Env.w_trace w) ++ tasks)%list
       /\ Obs.wg_adds (Env.w_trace (snd (Chan.Loop c requests w)))
          = (Obs.wg_adds (Env.w_trace w) ++ repeat 1 (List.length tasks))%list).
Proof.
  split.
  - apply processReq_work.
  - apply Loop_work.
Qed.

(** X12. A request makes at most one resize call; the call is made on the
    pty the channel holds after the request, and its rows and columns are
    both between 1 and 65535. *)
Theorem resize_is_never_empty :
  forall c req w,
    Obs.ioctls (Env.w_trace (snd (Chan.processReq c req w)))
    = Obs.ioctls (Env.w_trace w)
    \/ exists row col,
         Obs.ioctls (Env.w_trace (snd (Chan.processReq c req w)))
         = (Obs.ioctls (Env.w_trace w)
            ++ [(Chan.Fd_int (Chan.pty (fst (fst (Chan.processReq c req w)))),
                 row, col)])%list
         /\ 0 < row < 2 ^ 16 /\ 0 < col < 2 ^ 16.
Proof.
  apply processReq_ioctls.
Qed.

(** ** Further properties of the bridge *)



(** X14. When the command of a pipe-bound run (an "exec" on a channel
    without a tty) fails to start, the completion still runs: one
    "exit-status" message with the code 255 is sent, the channel is closed
    once and the wait group is told the goroutine is done. *)
Theorem pipe_run_completes_when_start_fails (c : Chan.Channel)
    (commands : list string) (w : Env.World) (e : string) :
  Chan.tty c = None ->
  Env.a_err (hd Env.silent (Env.w_script w)) = Some e ->
  fst (Bridge.run_process c (Env.TaskExec commands) w) = Bridge.Returned
  /\ Bridge.sent (Env.w_trace (snd (Bridge.run_process c (Env.TaskExec commands) w)))
     = (Bridge.sent (Env.w_trace w)
        ++ [("exit-status", false, [x00; x00; x00; xff])])%list
  /\ Bridge.closed (Env.w_trace (snd (Bridge.run_process c (Env.TaskExec commands) w)))
     = (Bridge.closed (Env.w_trace w) ++ [Chan.channel c])%list
  /\ Obs.wg_dones (Env.w_trace (snd (Bridge.run_process c (Env.TaskExec commands) w)))
     = S (Obs.wg_dones (Env.w_trace w)).
Proof.
  apply run_process_pipe_start_fails.
Qed.

Lemma pipe_run_completes_when_start_fails_witness :
  fst (Bridge.run_process Sample.chan (Env.TaskExec ["-c"; "ls"])
         (Demo.failing "exec: no such file"))
  = Bridge.Returned
  /\ Bridge.sent
       (Env.w_trace
          (snd (Bridge.run_process Sample.chan (Env.TaskExec ["-c"; "ls"])
                  (Demo.failing "exec: no such file"))))
     = [("exit-status", false, [x00; x00; x00; xff])]
  /\ Bridge.closed
       (Env.w_trace
          (snd (Bridge.run_process Sample.chan (Env.TaskExec ["-c"; "ls"])
                  (Demo.failing "exec: no such file"))))
     = [Some 7%nat]
  /\ Obs.wg_dones
       (Env.w_trace
          (snd (Bridge.run_process Sample.chan (Env.TaskExec ["-c"; "ls"])
                  (Demo.failing "exec: no such file"))))
     = 1%nat.
Proof.
  apply (pipe_run_completes_when_start_fails Sample.chan ["-c"; "ls"]
           (Demo.failing "exec: no such file") "exec: no such file");
    reflexivity.
Defined.

(** X15. A goroutine for a "shell" or an "exec" request that comes to its
    end tells the wait group exactly once that it is done. *)
Theorem returning_run_is_done_once (c : Chan.Channel) (t : Env.Task)
    (w : Env.World) :
  (t = Env.TaskShell \/ exists commands, t = Env.TaskExec commands) ->
  fst (Bridge.run_process c t w) = Bridge.Returned ->
  Obs.wg_dones (Env.w_trace (snd (Bridge.run_process c t w)))
  = S (Obs.wg_dones (Env.w_trace w)).
Proof.
  apply run_process_returns.
Qed.

Lemma returning_run_is_done_once_witness :
  Obs.wg_dones
    (Env.w_trace (snd (Bridge.run_process Demo.with_pty Env.TaskShell Sample.world)))
  = 1%nat.
Proof.
  apply (returning_run_is_done_once Demo.with_pty Env.TaskShell Sample.world).
  - left. reflexivity.
  - reflexivity.
Defined.

(** X16. On a channel with a tty, the command of a "shell" or an "exec"
    request is "bash" with the arguments of the request, its environment is
    USER and HOME of the channel's user followed by the assignments of the
    channel in their order, its directory is the user's home, its three
    standard streams and its one extra file are the tty, and it is made a
    session leader with descriptor 3 as its controlling terminal. *)
Theorem terminal_command_setup (c : Chan.Channel) (t : Env.Task) (w : Env.World)
    (f : Env.File) (args : list string) :
  Chan.tty c = Some f ->
  (t = Env.TaskShell /\ args = []) \/ t = Env.TaskExec args ->
  exists cmd,
    Chan.started (Env.w_trace (snd (Bridge.run_process c t w)))
    = (Chan.started (Env.w_trace w) ++ [cmd])%list
    /\ Env.Path cmd = "bash" /\ Env.Args cmd = "bash" :: args
    /\ Env.CmdEnv cmd
       = ("USER=" ++ Chan.Username (Chan.user c))
         :: ("HOME=" ++ Chan.HomeDir (Chan.user c)) :: Chan.env c
    /\ Env.Dir cmd = Chan.HomeDir (Chan.user c)
    /\ Env.Stdin cmd = Some (Env.WireFile (Some f))
    /\ Env.Stdout cmd = Some (Env.WireFile (Some f))
    /\ Env.Stderr cmd = Some (Env.WireFile (Some f))
    /\ Env.ExtraFiles cmd = [Some f]
    /\ Env.Setsid cmd = true /\ Env.Setctty cmd = true /\ Env.Ctty cmd = 3.
Proof.
  apply tty_command.
Qed.

Lemma terminal_command_setup_witness :
  exists cmd,
    Chan.started
      (Env.w_trace
         (snd (Bridge.run_process Demo.with_pty (Env.TaskExec ["-c"; "ls"]) Sample.world)))
    = (Chan.started (Env.w_trace Sample.world) ++ [cmd])%list
    /\ Env.Path cmd = "bash" /\ Env.Args cmd = ["bash"; "-c"; "ls"]
    /\ Env.CmdEnv cmd = ["USER=alice"; "HOME=/home/alice"]
    /\ Env.Dir cmd = "/home/alice"
    /\ Env.Stdin cmd = Some (Env.WireFile (Some 4%nat))
    /\ Env.Stdout cmd = Some (Env.WireFile (Some 4%nat))
    /\ Env.Stderr cmd = Some (Env.WireFile (Some 4%nat))
    /\ Env.ExtraFiles cmd = [Some 4%nat]
    /\ Env.Setsid cmd = true /\ Env.Setctty cmd = true /\ Env.Ctty cmd = 3.
Proof.
  apply (terminal_command_setup Demo.with_pty (Env.TaskExec ["-c"; "ls"])
           Sample.world 4%nat ["-c"; "ls"]).
  - reflexivity.
  - right. reflexivity.
Defined.

(** X17. On a channel without a tty, the command of an "exec" request is
    "bash" with the gathered arguments, its output and error streams are the
    stream of the channel and its input is not set; neither the environment
    the channel gathered nor a directory is given to it, and it is not made
    a session leader. *)
Theorem pipe_command_setup (c : Chan.Channel) (commands : list string)
    (w : Env.World) :
  Chan.tty c = None ->
  exists cmd,
    Chan.started (Env.w_trace (snd (Bridge.run_process c (Env.TaskExec commands) w)))
    = (Chan.started (Env.w_trace w) ++ [cmd])%list
    /\ Env.Path cmd = "bash" /\ Env.Args cmd = "bash" :: commands
    /\ Env.CmdEnv cmd = [] /\ Env.Dir cmd = ""
    /\ Env.Stdin cmd = None
    /\ Env.Stdout cmd = Some (Env.WireChannel (Chan.channel c))
    /\ Env.Stderr cmd = Some (Env.WireChannel (Chan.channel c))
    /\ Env.ExtraFiles cmd = []
    /\ Env.Setsid cmd = false /\ Env.Setctty cmd = false.
Proof.
  apply pipe_command.
Qed.

Lemma pipe_command_setup_witness :
  exists cmd,
    Chan.started
      (Env.w_trace
         (snd (Bridge.run_process
                 (Chan.set_env Sample.chan ["LANG=C"]) (Env.TaskExec ["-c"; "ls"])
                 Sample.world)))
    = (Chan.started (Env.w_trace Sample.world) ++ [cmd])%list
    /\ Env.Path cmd = "bash" /\ Env.Args cmd = ["bash"; "-c"; "ls"]
    /\ Env.CmdEnv cmd = [] /\ Env.Dir cmd = ""
    /\ Env.Stdin cmd = None
    /\ Env.Stdout cmd = Some (Env.WireChannel (Some 7%nat))
    /\ Env.Stderr cmd = Some (Env.WireChannel (Some 7%nat))
    /\ Env.ExtraFiles cmd = []
    /\ Env.Setsid cmd = false /\ Env.Setctty cmd = false.
Proof.
  apply (pipe_command_setup (Chan.set_env Sample.chan ["LANG=C"]) ["-c"; "ls"]
           Sample.world).
  reflexivity.
Defined.

(** ** Further properties of the codec *)

(** X18. When parsing a length-prefixed string succeeds, the buffer is its
    first four bytes, then the bytes of the string, then the part that was
    not consumed; the string is four bytes shorter than what was consumed,
    and what was consumed is at least 4 and at most the whole buffer. *)
Theorem parsed_string_splits_buffer (b : list byte) (s : string) (n : Z) :
  Codec.parseString b = (s, n, None) ->
  b = (firstn 4 b ++ Wire.bytes_of s ++ Go.slice_from b n)%list
  /\ Go.len (Wire.bytes_of s) = n - 4 /\ 4 <= n <= Go.len b.
Proof.
  apply parseString_parts.
Qed.

Lemma parsed_string_splits_buffer_witness :
  [x00; x00; x00; x02; x6c; x73; x58]
  = (firstn 4 [x00; x00; x00; x02; x6c; x73; x58] ++ Wire.bytes_of "ls"
     ++ Go.slice_from [x00; x00; x00; x02; x6c; x73; x58] 6)%list
  /\ Go.len (Wire.bytes_of "ls") = 6 - 4
  /\ 4 <= 6 <= Go.len [x00; x00; x00; x02; x6c; x73; x58].
Proof.
  apply (parsed_string_splits_buffer [x00; x00; x00; x02; x6c; x73; x58] "ls" 6).
  reflexivity.
Defined.

(** X19. Parsing inverts the encoding: a string of fewer than 2^32 bytes,
    encoded with its length prefix and followed by any bytes, parses to
    itself, consumes its encoding and leaves those bytes; and the "exec" loop
    reads a sequence of encoded tokens back as the same tokens in the same
    order. *)
Theorem strings_round_trip :
  (forall s rest,
     Wire.fits s ->
     Codec.parseString (Go.append_all (Wire.put_string s) rest)
     = (s, Go.len (Wire.bytes_of s) + 4, None)
     /\ Go.slice_from (Go.append_all (Wire.put_string s) rest)
          (Go.len (Wire.bytes_of s) + 4) = rest) /\
  (forall tokens,
     Forall Wire.fits tokens ->
     Chan.exec_tokens (Wire.put_strings tokens) = Some tokens).
Proof.
  split.
  - apply parseString_put_string.
  - apply exec_tokens_put_strings.
Qed.

Lemma strings_round_trip_witness :
  Codec.parseString (Go.append_all (Wire.put_string "xterm") [x01])
  = ("xterm", 9, None)
  /\ Chan.exec_tokens (Wire.put_strings ["echo"; ""; "a b"]) = Some ["echo"; ""; "a b"].
Proof.
  destruct strings_round_trip as [Hone Hall].
  split.
  - apply (Hone "xterm" [x01]). reflexivity.
  - apply (Hall ["echo"; ""; "a b"]). repeat constructor.
Defined.

(** ** Accepting connections and channels *)



(** X21. Over any sequence of new-channel notifications the accept loop
    appends to the list of the connection one channel for each "session"
    notification, in their order, and starts the loops of exactly these
    channels, adding 1 to the wait group for each; every other notification
    is rejected with its type as the message and does not disturb the ones
    after it; the last call of the loop is the wait on the transport. *)
Theorem accept_loop_records_sessions :
  forall newchans s st,
    exists cs,
      Conn.chans (fst (Accept.Loop s newchans st)) = (Conn.chans s ++ cs)%list
      /\ Accept.loops (Accept.s_calls (snd (Accept.Loop s newchans st)))
         = (Accept.loops (Accept.s_calls st) ++ cs)%list
      /\ Accept.additions (Accept.s_calls (snd (Accept.Loop s newchans st)))
         = (Accept.additions (Accept.s_calls st) ++ repeat 1 (List.length cs))%list
      /\ Accept.rejections (Accept.s_calls (snd (Accept.Loop s newchans st)))
         = (Accept.rejections (Accept.s_calls st)
            ++ map (fun nc => (Accept.ChannelType nc, Accept.ChannelType nc))
                 (filter (fun nc => negb (Accept.is_session nc)) newchans))%list
      /\ List.length cs = List.length (filter Accept.is_session newchans)
      /\ Forall (fun c => Chan.pty c = None /\ Chan.tty c = None /\ Chan.env c = []
                          /\ Chan.sftpServer c = None
                          /\ Chan.user c = Conn.conn_user s) cs
      /\ last (Accept.s_calls (snd (Accept.Loop s newchans st)))
           Accept.GoDiscardRequests
         = Accept.SshconWait (Conn.sshcon s).
Proof.
  apply Loop_adds.
Qed.

(** X22. If every channel loop started so far is recorded in the list of
    the connection, this is still so after the accept loop has run, and so
    the teardown of [Close] cancels the scope of every started channel and
    closes its stream when it has one. *)
Theorem teardown_reaches_every_started_channel (s : Conn.ServerConn)
    (newchans : list Accept.NewChannel) (st : Accept.State) :
  (forall c, In c (Accept.loops (Accept.s_calls st)) -> In c (Conn.chans s)) ->
  forall c,
    In c (Accept.loops (Accept.s_calls (snd (Accept.Loop s newchans st)))) ->
    In c (Conn.chans (fst (Accept.Loop s newchans st)))
    /\ In (Env.EvCancel (Chan.baseCancel c))
          (Conn.teardown (fst (Accept.Loop s newchans st)))
    /\ (forall ch,
          Chan.channel c = Some ch ->
          In (Env.EvChannelClose (Some ch))
             (Conn.teardown (fst (Accept.Loop s newchans st)))).
Proof.
  intros Hinv c Hc.
  destruct (Loop_adds newchans s st) as (cs & C & L & _).
  assert (Hin : In c (Conn.chans (fst (Accept.Loop s newchans st)))).
  { rewrite C. rewrite L in Hc. apply in_app_or in Hc. apply in_or_app.
    destruct Hc as [Hc | Hc]; [left; now apply Hinv | now right]. }
  split; [exact Hin | now apply recorded_is_released].
Qed.

Lemma teardown_reaches_every_started_channel_witness :
  In (Conn.newChannel Sample.conn (Some 0%nat) 1%nat)
     (Conn.chans
        (fst (Accept.Loop Sample.conn
                [{| Accept.ChannelType := "x11" |};
                 {| Accept.ChannelType := "session" |}] Demo.fresh_state)))
  /\ In (Env.EvCancel 1%nat)
        (Conn.teardown
           (fst (Accept.Loop Sample.conn
                   [{| Accept.ChannelType := "x11" |};
                    {| Accept.ChannelType := "session" |}] Demo.fresh_state))).
Proof.
  destruct (teardown_reaches_every_started_channel Sample.conn
              [{| Accept.ChannelType := "x11" |};
               {| Accept.ChannelType := "session" |}] Demo.fresh_state)
    with (c := Conn.newChannel Sample.conn (Some 0%nat) 1%nat)
    as (Hin & Hcancel & _).
  - intros c H. destruct H.
  - left. reflexivity.
  - split; [exact Hin | exact Hcancel].
Defined.

(** X23. [NewFromConn] gives no connection when the handshake fails, without
    any further call, and none when the user the handshake reports is not
    found, after closing the transport it had opened; in both cases the
    error names the step that failed. Otherwise it gives a connection for
    that user with no channel recorded, after starting the goroutine that
    discards global requests. *)
Theorem NewFromConn_outcomes :
  (forall lookup conn st e,
     Env.a_err (hd Env.silent (Accept.s_script st)) = Some e ->
     Accept.NewFromConn lookup conn st
     = (None, Some ("failed to create a new connection: " ++ e),
        {| Accept.s_script := tl (Accept.s_script st);
           Accept.s_fresh := Accept.s_fresh st;
           Accept.s_calls :=
             Go.append (Accept.s_calls st) (Accept.NewServerConn conn) |})) /\
  (forall lookup conn st e,
     Env.a_err (hd Env.silent (Accept.s_script st)) = None ->
     lookup (Accept.remote_user conn) = inr e ->
     Accept.NewFromConn lookup conn st
     = (None,
        Some ("cannot find user " ++ Accept.remote_user conn ++ ": " ++ e),
        {| Accept.s_script := tl (tl (Accept.s_script st));
           Accept.s_fresh := S (Accept.s_fresh st);
           Accept.s_calls :=
             Go.append_all (Accept.s_calls st)
               [Accept.NewServerConn conn;
                Accept.UserLookup (Accept.remote_user conn);
                Accept.Base (Env.EvTransportClose (Accept.s_fresh st))] |})) /\
  (forall lookup conn st u,
     Env.a_err (hd Env.silent (Accept.s_script st)) = None ->
     lookup (Accept.remote_user conn) = inl u ->
     Accept.NewFromConn lookup conn st
     = (Some {| Conn.sshcon := Accept.s_fresh st;
                Conn.conn_baseCancel := S (Accept.s_fresh st);
                Conn.chans := []; Conn.conn_user := u |}, None,
        {| Accept.s_script := tl (Accept.s_script st);
           Accept.s_fresh := S (S (Accept.s_fresh st));
           Accept.s_calls :=
             Go.append_all (Accept.s_calls st)
               [Accept.NewServerConn conn;
                Accept.UserLookup (Accept.remote_user conn);
                Accept.GoDiscardRequests] |})).
Proof.
  split; [| split].
  - apply NewFromConn_handshake_fails.
  - apply NewFromConn_unknown_user.
  - apply NewFromConn_succeeds.
Qed.

Lemma NewFromConn_outcomes_witness :
  Accept.NewFromConn Demo.users {| Accept.remote_user := "bob" |} Demo.fresh_state
  = (None, Some "cannot find user bob: user: unknown user bob",
     {| Accept.s_script := []; Accept.s_fresh := 1%nat;
        Accept.s_calls :=
          [Accept.NewServerConn {| Accept.remote_user := "bob" |};
           Accept.UserLookup "bob"; Accept.Base (Env.EvTransportClose 0%nat)] |})
  /\ fst (fst (Accept.NewFromConn Demo.users {| Accept.remote_user := "alice" |}
                 Demo.fresh_state))
     = Some {| Conn.sshcon := 0%nat; Conn.conn_baseCancel := 1%nat;
               Conn.chans := []; Conn.conn_user := Sample.alice |}.
Proof.
  destruct NewFromConn_outcomes as (_ & Hunknown & Hok).
  split.
  - apply (Hunknown Demo.users {| Accept.remote_user := "bob" |} Demo.fresh_state
             "user: unknown user bob"); reflexivity.
  - rewrite (Hok Demo.users {| Accept.remote_user := "alice" |} Demo.fresh_state
               Sample.alice); reflexivity.
Defined.
